(** * wql: tabular Q-learning experiments and the DQN weight wrapper

    A shallow embedding of
    - [src/q_learning/run.py]: [compute_scores], [experiment] (seeding, MDP
      selection, policy/algorithm wiring, the epoch loop) and the command
      line;
    - [src/dqn/gym/dqn_net.py]: [SimpleNet], as far as its own Python
      decides what happens (construction, weights, prediction, fitting,
      saving and loading);
    - the particle/ensemble Q-learning update and the VPI policy, whose
      modules ([particle_q_learning], [policy]) are imported by [run.py]
      but are not among the sources, and are therefore modelled from the
      specification.

    Python floats are idealised as real numbers throughout. *)

From Stdlib Require Import Reals Lra Lia String ZArith.
From stdpp Require Import base list strings.

Local Open Scope string_scope.
Local Open Scope R_scope.

(** ** Python results *)

Inductive exn : Type :=
| NotImplementedError
| ValueError
| KeyError (key : string)
| IndexError
| AssertionError
| AttributeError (attr : string)
| TypeError.

Inductive Py (A : Type) : Type :=
| Raise (e : exn)
| Return (a : A).
Arguments Raise {A} e.
Arguments Return {A} a.

Definition py_bind {A B : Type} (m : Py A) (k : A -> Py B) : Py B :=
  match m with
  | Raise e => Raise e
  | Return a => k a
  end.

#[global] Instance Py_ret : MRet Py := @Return.
#[global] Instance Py_bind : MBind Py := fun A B k m => py_bind m k.

Definition raises {A : Type} (m : Py A) : Prop :=
  match m with Raise _ => True | Return _ => False end.

(** [x in [a, b, ...]] on Python strings. *)
Definition str_in (x : string) (l : list string) : bool :=
  existsb (String.eqb x) l.

(** ** numpy helpers

    [np_min] and [np_max] are only called on non-empty lists (numpy raises
    on an empty one); the value 0 on the empty list is never observed by
    [compute_scores].  The sums, means and deviations are those of the real
    numbers: the rounding of binary64 is left out, so nothing is derived
    here that rounding can break, such as a mean lying between the extreme
    values. *)

Definition np_sum (l : list R) : R := foldr Rplus 0 l.

Definition np_mean (l : list R) : R := np_sum l / INR (length l).

Definition np_min (l : list R) : R :=
  match l with
  | [] => 0
  | x :: xs => foldl Rmin x xs
  end.

Definition np_max (l : list R) : R :=
  match l with
  | [] => 0
  | x :: xs => foldl Rmax x xs
  end.

Definition np_std (l : list R) : R :=
  let m := np_mean l in
  sqrt (np_mean (map (fun x => (x - m) * (x - m)) l)).

(** ** mushroom collaborators of [run.py] *)

(** Modelled from the spec: [mushroom.utils.table.Table] is not among the
    sources.  A table over a two-dimensional (state, action) space is a list
    of rows; [Table(shape, initial_value=v)] holds [v] in every entry. *)
Abbreviation Table := (list (list R)).

(** Modelled from the spec: [Table(shape, initial_value=v)] of mushroom. *)
Definition Table_new (shape : nat * nat) (initial_value : R) : Table :=
  replicate (fst shape) (replicate (snd shape) initial_value).

(** Modelled from the spec: reading [q[s, a]] of a mushroom table. *)
Definition table_get (q : Table) (s a : nat) : option R :=
  match q !! s with
  | Some row => row !! a
  | None => None
  end.

(** Modelled from the spec: [q[s, a] = v]; out of range the table is left as it is (callers check
    the bounds first and raise). *)
Definition table_set (q : Table) (s a : nat) (v : R) : Table :=
  match q !! s with
  | Some row => <[s := <[a := v]> row]> q
  | None => q
  end.

(** Modelled from the spec: [mushroom.utils.parameters.Parameter] and
    [ExponentialDecayParameter] are not among the sources.  A parameter keeps
    one visit counter per index of its [size]; a call at an index first
    increments that counter and then returns the value computed from it:
    the initial value for a constant [Parameter], and
    [value / max(n, 1) ** decay_exp] for the decaying one (the
    "visit-count-dependent decaying step size" of the specification). *)
Inductive schedule : Type :=
| Constant
| ExponentialDecay (decay_exp : R).

Record Param : Type := mkParam {
  p_schedule : schedule;
  p_initial_value : R;
  p_size : list nat;
  p_n_updates : list nat -> nat
}.

(** Modelled from the spec: [Parameter(value)] of mushroom, with the default size [(1,)]. *)
Definition Parameter_new (value : R) : Param :=
  mkParam Constant value [1%nat] (fun _ => 0%nat).

(** Modelled from the spec: [ExponentialDecayParameter(value, decay_exp, size=size)] of mushroom. *)
Definition ExponentialDecayParameter_new (value decay_exp : R)
    (size : list nat) : Param :=
  mkParam (ExponentialDecay decay_exp) value size (fun _ => 0%nat).

Definition idx_eqb (i j : list nat) : bool := bool_decide (i = j).

(** Modelled from the spec: an index is valid when it has one in-range component per dimension. *)
Fixpoint idx_in_range (idx size : list nat) : bool :=
  match idx, size with
  | [], [] => true
  | i :: idx', n :: size' => (i <? n)%nat && idx_in_range idx' size'
  | _, _ => false
  end.

(** Modelled from the spec: a parameter with a single cell ignores the index it is called with. *)
Definition param_idx (p : Param) (idx : list nat) : list nat :=
  if bool_decide (foldr Nat.mul 1%nat (p_size p) = 1%nat)
  then replicate (length (p_size p)) 0%nat
  else idx.

(** Modelled from the spec: [Parameter.update], the increment of the visit counter. *)
Definition param_update (p : Param) (idx : list nat) : Param :=
  mkParam (p_schedule p) (p_initial_value p) (p_size p)
    (fun j => if idx_eqb j idx then S (p_n_updates p j) else p_n_updates p j).

(** Modelled from the spec: [_compute] of the two mushroom parameters. *)
Definition param_compute (p : Param) (idx : list nat) : R :=
  match p_schedule p with
  | Constant => p_initial_value p
  | ExponentialDecay e =>
      p_initial_value p / Rpower (INR (Nat.max (p_n_updates p idx) 1)) e
  end.

(** Modelled from the spec: [Parameter.get_value] (no minimum value is ever passed by the sources). *)
Definition param_get_value (p : Param) (idx : list nat) : R :=
  param_compute p (param_idx p idx).

(** Modelled from the spec: a call [p(idx)]: update, then read. *)
Definition param_call (p : Param) (idx : list nat) : Py (Param * R) :=
  let i := param_idx p idx in
  if idx_in_range i (p_size p)
  then let p' := param_update p i in Return (p', param_compute p' i)
  else Raise IndexError.

(** ** [run.py]: [compute_scores] *)

(** One element of the dataset collected by the driver: the tuple
    (state, action, reward, next_state, absorbing, last).  [compute_scores]
    reads [dataset[i][2]] (the reward) and [dataset[i][-1]] (the final
    flag, which closes an episode). *)
Record Sample : Type := mkSample {
  d_state : nat;
  d_action : nat;
  d_reward : R;
  d_next_state : nat;
  d_absorbing : bool;
  d_last : bool
}.

(** A component of the returned tuple. *)
Inductive pyval : Type :=
| PyFloat (x : R)
| PyInt (n : Z).

(** The local variables of the loop. *)
Record score_acc : Type := mkAcc {
  scores : list R;
  disc_scores : list R;
  lens : list nat;
  score : R;
  disc_score : R;
  episode_steps : nat;
  n_episodes : nat
}.

Definition score_init : score_acc := mkAcc [] [] [] 0 0 0%nat 0%nat.

(** One iteration of the loop body (lines 44-53).  At the end of an episode
    the source resets [score] and [episode_steps]; [disc_score] is not
    reset. *)
Definition score_step (gamma : R) (acc : score_acc) (d : Sample) : score_acc :=
  let score' := score acc + d_reward d in
  let disc_score' := disc_score acc + d_reward d * gamma ^ episode_steps acc in
  let episode_steps' := S (episode_steps acc) in
  if d_last d
  then mkAcc (scores acc ++ [score']) (disc_scores acc ++ [disc_score'])
             (lens acc ++ [episode_steps'])
             0 disc_score' 0%nat (S (n_episodes acc))
  else mkAcc (scores acc) (disc_scores acc) (lens acc)
             score' disc_score' episode_steps' (n_episodes acc).

Definition score_loop (dataset : list Sample) (gamma : R) : score_acc :=
  foldl (score_step gamma) score_init dataset.

Definition compute_scores (dataset : list Sample) (gamma : R) : list pyval :=
  let acc := score_loop dataset gamma in
  if (0 <? length (scores acc))%nat
  then [ PyFloat (np_min (scores acc)); PyFloat (np_max (scores acc));
         PyFloat (np_mean (scores acc)); PyFloat (np_std (scores acc));
         PyFloat (np_min (disc_scores acc)); PyFloat (np_max (disc_scores acc));
         PyFloat (np_mean (disc_scores acc)); PyFloat (np_std (disc_scores acc));
         PyFloat (np_mean (map INR (lens acc)));
         PyInt (Z.of_nat (n_episodes acc)) ]
  else [ PyInt 0; PyInt 0; PyInt 0; PyInt 0; PyInt 0; PyInt 0;
         PyInt 0; PyInt 0; PyInt 0; PyInt 0; PyInt 0 ].

(** ** [run.py]: the construction phase of [experiment] *)

(** numpy's process-global generator, identified by the material it was last
    seeded with and the number of draws made since. *)
Record RandomState : Type := mkRandomState {
  seeded_with : N;
  n_draws : nat
}.

(** [np.random.seed(seed)]: with a seed the generator restarts from it; with
    no argument it restarts from fresh operating-system entropy. *)
Definition np_random_seed (seed : option N) (os_entropy : N)
    (g : RandomState) : RandomState :=
  match seed with
  | Some s => mkRandomState s 0
  | None => mkRandomState os_entropy 0
  end.

(** Static metadata of an MDP, as read through [mdp.info]. *)
Record MDPInfo : Type := mkMDPInfo {
  n_states : nat;
  n_actions : nat;
  gamma : R
}.

Definition info_size (i : MDPInfo) : list nat := [n_states i; n_actions i].
Definition info_shape (i : MDPInfo) : nat * nat := (n_states i, n_actions i).
Definition observation_space_size (i : MDPInfo) : list nat := [n_states i].

(** The generator calls of lines 66-90.  The generators themselves live in
    [envs/], outside the sources; what they build is supplied by the
    caller as an [Environments] function. *)
Inductive generator : Type :=
| generate_taxi (grid : string)
| generate_chain (horizon : Z)
| generate_loop (horizon : Z)
| generate_river (horizon : Z)
| generate_arms (horizon : Z).

Definition Environments : Type := generator -> MDPInfo.

Record Budget : Type := mkBudget {
  mdp_gen : generator;
  max_steps : Z;
  evaluation_frequency : Z;
  test_samples : Z
}.

Definition select_mdp (name : string) : Py Budget :=
  if String.eqb name "Taxi" then
    Return (mkBudget (generate_taxi "grid.txt") 1000000 100000 100000)
  else if String.eqb name "Chain" then
    Return (mkBudget (generate_chain 1000) 100000 10000 10000)
  else if String.eqb name "Loop" then
    Return (mkBudget (generate_loop 1000) 100000 10000 10000)
  else if String.eqb name "RiverSwim" then
    Return (mkBudget (generate_river 1000) 100000 10000 10000)
  else if String.eqb name "SixArms" then
    Return (mkBudget (generate_arms 1000) 100000 10000 10000)
  else Raise NotImplementedError.

Inductive policy_class : Type :=
| EpsGreedy
| Boltzmann
| WeightedPolicy
| BootPolicy
| VPIPolicy.

Definition policy_dict (key : string) : Py policy_class :=
  if String.eqb key "eps-greedy" then Return EpsGreedy
  else if String.eqb key "boltzmann" then Return Boltzmann
  else if String.eqb key "weighted" then Return WeightedPolicy
  else if String.eqb key "boot" then Return BootPolicy
  else if String.eqb key "vpi" then Return VPIPolicy
  else Raise (KeyError key).

(** The keyword argument a policy is constructed with. *)
Inductive policy_kwargs : Type :=
| kw_epsilon (epsilon : Param)
| kw_beta (beta : Param)
| kw_n_approximators (n_approximators : Z).

Record policy_obj : Type := mkPolicy {
  pi_class : policy_class;
  pi_kwargs : policy_kwargs
}.

(** The agents of lines 111-112, 123 and 136, with the arguments they are
    constructed from. *)
Inductive agent : Type :=
| QLearning (pi : policy_obj) (info : MDPInfo) (learning_rate : Param)
    (Q : Table)
| BootstrappedQLearning (pi : policy_obj) (info : MDPInfo)
    (n_approximators : Z) (mu sigma : R) (learning_rate : Param)
| ParticleQLearning (pi : policy_obj) (info : MDPInfo)
    (n_approximators : Z) (update_mode update_type : string)
    (q_max q_min : R) (learning_rate : Param).

Record Args : Type := mkArgs {
  a_algorithm : string;
  a_name : string;
  a_update_mode : string;
  a_update_type : string;
  a_policy : string;
  a_n_approximators : Z;
  a_q_max : R;
  a_q_min : R
}.

(** What lines 62-139 leave behind for the training loop. *)
Record Setup : Type := mkSetup {
  warnings : list string;
  policy_name : string;
  the_pi : policy_obj;
  the_agent : agent;
  epsilon_train : Param;
  epsilon_test : Param;
  budget : Budget
}.

Definition build_agent (info : MDPInfo) (learning_rate : Param) (a : Args)
    : Py (list string * string * policy_obj * agent * Param) :=
  if String.eqb (a_algorithm a) "ql" then
    let '(w, policy) :=
      if negb (str_in (a_policy a) ["boltzmann"; "eps-greedy"])
      then (["QL available with only boltzmann and eps-greedy policies!"],
            "eps-greedy")
      else ([], a_policy a) in
    let epsilon_train :=
      ExponentialDecayParameter_new 1 0.5 (observation_space_size info) in
    cls ← policy_dict policy;
    let pi :=
      if String.eqb policy "eps-greedy"
      then mkPolicy cls (kw_epsilon epsilon_train)
      else mkPolicy cls (kw_beta epsilon_train) in
    Return (w, policy, pi,
            QLearning pi info learning_rate (Table_new (info_shape info) (a_q_max a)),
            epsilon_train)
  else if String.eqb (a_algorithm a) "boot-ql" then
    let '(w, policy) :=
      if negb (str_in (a_policy a) ["boot"; "weighted"])
      then (["Bootstrapped QL available with only boot and weighted policies!"],
            "boot")
      else ([], a_policy a) in
    cls ← policy_dict policy;
    let pi := mkPolicy cls (kw_n_approximators (a_n_approximators a)) in
    Return (w, policy, pi,
            BootstrappedQLearning pi info (a_n_approximators a)
              ((a_q_max a + a_q_min a) / 2) (a_q_max a - a_q_min a)
              learning_rate,
            Parameter_new 0)
  else if String.eqb (a_algorithm a) "particle-ql" then
    let '(w, policy) :=
      if negb (str_in (a_policy a) ["weighted"; "vpi"])
      then (["Particle QL available with only vpi and weighted policies!"],
            "weighted")
      else ([], a_policy a) in
    cls ← policy_dict policy;
    let pi := mkPolicy cls (kw_n_approximators (a_n_approximators a)) in
    Return (w, policy, pi,
            ParticleQLearning pi info (a_n_approximators a)
              (a_update_mode a) (a_update_type a) (a_q_max a) (a_q_min a)
              learning_rate,
            Parameter_new 0)
  else Raise ValueError.

(** [experiment], lines 62-139: the global generator is re-seeded first,
    whatever the arguments; then the MDP, the policy and the agent are
    built.  The arguments carry no seed. *)
Definition experiment_setup (envs : Environments) (os_entropy : N)
    (g : RandomState) (a : Args) : RandomState * Py Setup :=
  let g' := np_random_seed None os_entropy g in
  (g',
   b ← select_mdp (a_name a);
   let info := envs (mdp_gen b) in
   let epsilon_test := Parameter_new 0 in
   let learning_rate := ExponentialDecayParameter_new 1 0.3 (info_size info) in
   '(w, policy, pi, ag, epsilon_train) ← build_agent info learning_rate a;
   Return (mkSetup w policy pi ag epsilon_train epsilon_test b)).

(** ** [dqn_net.py]: [SimpleNet.set_weights] *)

(** An array, as a graph variable holds it and as [set_weights] is fed it:
    its shape and its entries, flattened. *)
Record tensor : Type := mkTensor {
  t_shape : list nat;
  t_data : list R
}.

(** A one-dimensional array. *)
Definition vec (l : list R) : tensor := mkTensor [length l] l.

(** [tf.placeholder(w[i].dtype, shape=w[i].shape)]: the i-th placeholder
    made under [weights_placeholder]; it keeps the shape of the variable it
    was made for. *)
Record placeholder : Type := mkPlaceholder {
  ph_id : nat;
  ph_shape : list nat
}.

(** [w[i].assign(ph)]: writes the value fed for [ph] into variable [var]. *)
Record assign_op : Type := mkAssign {
  assign_var : nat;
  assign_from : placeholder
}.

(** The part of a [SimpleNet] that [set_weights] touches.  [variables] are
    the session values of the global variables collected under the scope,
    in collection order.  [_target_w] and [_w] are attributes that exist
    only when [__init__] created them. *)
Record SimpleNet : Type := mkNet {
  _name : option string;
  variables : list tensor;
  _target_w : option (list placeholder);
  _w : option (list assign_op)
}.

(** Lines 21-36 of [__init__], after the graph was built or loaded with the
    variables [vars]: the assign operations are created for the network
    named ['target'] and for no other. *)
Definition SimpleNet_init (name : option string) (vars : list tensor) : SimpleNet :=
  if bool_decide (name = Some "target")
  then mkNet name vars
         (Some (imap mkPlaceholder (map t_shape vars)))
         (Some (imap (fun i sh => mkAssign i (mkPlaceholder i sh))
                  (map t_shape vars)))
  else mkNet name vars None None.

Definition getattr {A : Type} (attr : string) (o : option A) : Py A :=
  match o with
  | Some x => Return x
  | None => Raise (AttributeError attr)
  end.

Definition getitem {A : Type} (l : list A) (i : nat) : Py A :=
  match l !! i with
  | Some x => Return x
  | None => Raise IndexError
  end.

(** [session.run(op, feed_dict={ph: value})] for an assign operation.  The
    session refuses, with [ValueError] and before it runs anything, a value
    whose shape is not the shape the placeholder was made with. *)
Definition session_run (net : SimpleNet) (op : assign_op)
    (ph : placeholder) (value : tensor) : Py SimpleNet :=
  if (ph_id (assign_from op) =? ph_id ph)%nat
  then if bool_decide (t_shape value = ph_shape ph)
       then Return (mkNet (_name net) (<[assign_var op := value]> (variables net))
                      (_target_w net) (_w net))
       else Raise ValueError
  else Raise ValueError.

(** The body of the loop of lines 62-64 at index [i]. *)
Definition set_weights_step (net : SimpleNet) (weights : list tensor)
    (i : nat) : Py SimpleNet :=
  ops ← getattr "_w" (_w net);
  op ← getitem ops i;
  phs ← getattr "_target_w" (_target_w net);
  ph ← getitem phs i;
  v ← getitem weights i;
  session_run net op ph v.

(** The loop stops at the first exception and leaves the network as the
    iterations before it made it. *)
Fixpoint set_weights_loop (net : SimpleNet) (weights : list tensor)
    (range : list nat) : SimpleNet * Py unit :=
  match range with
  | [] => (net, Return tt)
  | i :: rest =>
      match set_weights_step net weights i with
      | Raise e => (net, Raise e)
      | Return net' => set_weights_loop net' weights rest
      end
  end.

Definition set_weights (net : SimpleNet) (weights : list tensor)
    : SimpleNet * Py unit :=
  let w := variables net in
  if negb (length w =? length weights)%nat
  then (net, Raise AssertionError)
  else set_weights_loop net weights (seq 0 (length w)).

(** ** Ensemble Q-update *)

(** Modelled from the spec: the modules [particle_q_learning] and
    [boot_q_learning] are not among the sources.  The definitions below
    follow section 4.1 of the specification: an ensemble of N tables over
    one state/action space; a target that depends on [update_type]; the
    subset of updated members given by [update_mode]; the rule
    [Q(s,a) += lr(s,a) * (target - Q(s,a))]; [target = reward] on terminal
    transitions; out-of-range indices fail fast. *)
Inductive update_type : Type := Mean | Distributional | Weighted.
Inductive update_mode : Type := Deterministic | Randomized.

Abbreviation Ensemble := (list (list (list R))).

Record Transition : Type := mkTransition {
  t_state : nat;
  t_action : nat;
  t_reward : R;
  t_next_state : nat;
  t_terminal : bool
}.

Record Config : Type := mkConfig {
  c_update_mode : update_mode;
  c_update_type : update_type;
  c_gamma : R;
  c_mix : R
}.

(** The mutable state of the algorithm: the ensemble and the per-entry
    learning-rate parameter. *)
Record Particles : Type := mkParticles {
  Qs : Ensemble;
  alpha : Param
}.

(** Modelled from the spec: an ensemble whose members are all initialised to the constant [c]. *)
Definition constant_ensemble (n : nat) (shape : nat * nat) (c : R) : Ensemble :=
  replicate n (Table_new shape c).

Fixpoint py_sequence {A : Type} (l : list (Py A)) : Py (list A) :=
  match l with
  | [] => Return []
  | m :: ms => x ← m; xs ← py_sequence ms; Return (x :: xs)
  end.

(** Modelled from the spec: the maximum of a row of Q-values; numpy raises on an empty row. *)
Definition row_max (row : list R) : Py R :=
  match row with
  | [] => Raise ValueError
  | _ => Return (np_max row)
  end.

(** Modelled from the spec: [max_a' Q(next_state, a')] for one member. *)
Definition max_next (q : Table) (s' : nat) : Py R :=
  row ← getitem q s'; row_max row.

(** Modelled from the spec: the bootstrap term of the three update types of section 4.1 (mean of the members' maxima; the member's own maximum; a blend of both with the fixed mixing coefficient [c_mix]). *)
Definition bootstrap (cfg : Config) (E : Ensemble) (s' : nat) (q : Table) : Py R :=
  match c_update_type cfg with
  | Mean =>
      ms ← py_sequence (map (fun q' => max_next q' s') E);
      Return (np_mean ms)
  | Distributional => max_next q s'
  | Weighted =>
      own ← max_next q s';
      ms ← py_sequence (map (fun q' => max_next q' s') E);
      Return (c_mix cfg * own + (1 - c_mix cfg) * np_mean ms)
  end.

(** Modelled from the spec: the target of section 4.1, the reward alone on a terminal transition. *)
Definition target (cfg : Config) (E : Ensemble) (tr : Transition) (q : Table) : Py R :=
  if t_terminal tr then Return (t_reward tr)
  else b ← bootstrap cfg E (t_next_state tr) q;
       Return (t_reward tr + c_gamma cfg * b).

(** Modelled from the spec: which members receive the transition; in randomized mode the mask is
    the per-transition random draw. *)
Definition selected (m : update_mode) (mask : nat -> bool) (i : nat) : bool :=
  match m with
  | Deterministic => true
  | Randomized => mask i
  end.

(** Modelled from the spec: the fail-fast bounds check on (state, action), for every member. *)
Definition in_bounds (E : Ensemble) (s a : nat) : bool :=
  forallb (fun q => bool_decide (is_Some (table_get q s a))) E.

(** Modelled from the spec: the rule [Q(s,a) += lr(s,a) * (target - Q(s,a))] on one member; targets are computed on the ensemble as it was before the transition. *)
Definition update_member (cfg : Config) (E : Ensemble) (tr : Transition)
    (lr : R) (mask : nat -> bool) (i : nat) (q : Table) : Py Table :=
  if selected (c_update_mode cfg) mask i then
    old ← (match table_get q (t_state tr) (t_action tr) with
           | Some v => Return v
           | None => Raise IndexError
           end);
    tgt ← target cfg E tr q;
    Return (table_set q (t_state tr) (t_action tr) (old + lr * (tgt - old)))
  else Return q.

(** Modelled from the spec: [update(state, action, reward, next_state, terminal)]. *)
Definition update (cfg : Config) (st : Particles) (tr : Transition)
    (mask : nat -> bool) : Py Particles :=
  if negb (in_bounds (Qs st) (t_state tr) (t_action tr)) then Raise IndexError
  else
    '(alpha', lr) ← param_call (alpha st) [t_state tr; t_action tr];
    E' ← py_sequence (imap (update_member cfg (Qs st) tr lr mask) (Qs st));
    Return (mkParticles E' alpha').

(** Modelled from the spec: a run of the driver: one update per transition, in order. *)
Fixpoint updates (cfg : Config) (st : Particles)
    (trs : list (Transition * (nat -> bool))) : Py Particles :=
  match trs with
  | [] => Return st
  | (tr, mask) :: rest => st' ← update cfg st tr mask; updates cfg st' rest
  end.

(** ** Exploration policy: VPI *)

#[global] Instance R_eq_dec : EqDecision R := Req_dec_T.

(** Modelled from the spec: the module [policy] is not among the sources.
    Section 4.4: for each action the ensemble mean, the ensemble standard
    deviation, and a bonus "computed from the gap between the action's mean
    and the best competing action's mean, scaled by the standard
    deviation"; the score is mean + bonus and the action an arg-max of the
    score, ties broken uniformly at random.  The closed-form expression is
    not given by the specification: it is the argument [gain], a function
    of the gap and of the standard deviation, and the bonus is the standard
    deviation times [gain]. *)
Definition column (rows : list (list R)) (a : nat) : Py (list R) :=
  py_sequence (map (fun row => getitem row a) rows).

(** Modelled from the spec: mean and standard deviation of [Q_i(state, a)] across the members. *)
Definition action_stats (rows : list (list R)) (a : nat) : Py (R * R) :=
  vals ← column rows a; Return (np_mean vals, np_std vals).

(** Modelled from the spec: the per-action statistics of section 4.4 over the members' rows for [state]. *)
Definition ensemble_stats (E : Ensemble) (state : nat) : Py (list (R * R)) :=
  rows ← py_sequence (map (fun q => getitem q state) E);
  match rows with
  | [] => Raise ValueError
  | row :: _ => py_sequence (map (action_stats rows) (seq 0 (length row)))
  end.

(** Modelled from the spec: the best mean among the other actions. *)
Definition best_competing (means : list R) (a : nat) : R :=
  np_max (delete a means).

(** Modelled from the spec: the VPI bonus of section 4.4, the standard deviation times [gain] of the gap and the standard deviation. *)
Definition vpi_bonus (gain : R -> R -> R) (stats : list (R * R)) (a : nat) : R :=
  match stats !! a with
  | Some (m, sd) => sd * gain (m - best_competing (map fst stats) a) sd
  | None => 0
  end.

(** Modelled from the spec: final score = mean + VPI bonus. *)
Definition vpi_scores (gain : R -> R -> R) (stats : list (R * R)) : list R :=
  imap (fun a st => fst st + vpi_bonus gain stats a) stats.

(** Modelled from the spec: the actions that attain the maximum. *)
Definition argmax_set (values : list R) : list nat :=
  filter (fun a => values !! a = Some (np_max values)) (seq 0 (length values)).

(** Modelled from the spec: uniform tie-breaking: [u] is the random draw. *)
Definition choice (u : nat) (candidates : list nat) : Py nat :=
  match candidates with
  | [] => Raise ValueError
  | _ => getitem candidates (u mod length candidates)
  end.

(** Modelled from the spec: arg-max with ties broken by the draw [u]. *)
Definition greedy (values : list R) (u : nat) : Py nat :=
  choice u (argmax_set values).

(** Modelled from the spec: plain greedy over the ensemble mean. *)
Definition greedy_mean_action (E : Ensemble) (state : nat) (u : nat) : Py nat :=
  stats ← ensemble_stats E state; greedy (map fst stats) u.

(** Modelled from the spec: [select_action(state)] of the VPI policy; with [eval] set, exploration
    is disabled. *)
Definition vpi_select_action (gain : R -> R -> R) (eval : bool)
    (E : Ensemble) (state : nat) (u : nat) : Py nat :=
  if eval then greedy_mean_action E state u
  else stats ← ensemble_stats E state; greedy (vpi_scores gain stats) u.

(** All members hold the same Q-values in [state]. *)
Definition members_agree (E : Ensemble) (state : nat) : Prop :=
  forall q q', q ∈ E -> q' ∈ E -> q !! state = q' !! state.

(** ** Auxiliary definitions used in the statements *)

(** The number of samples that close an episode. *)
Definition n_last (dataset : list Sample) : nat :=
  length (List.filter d_last dataset).

(** The combinations for which [experiment] warns: the policy is not among
    those listed for the algorithm (lines 102, 115 and 126). *)
Definition invalid_combination (algorithm policy : string) : bool :=
  if String.eqb algorithm "ql"
  then negb (str_in policy ["boltzmann"; "eps-greedy"])
  else if String.eqb algorithm "boot-ql"
  then negb (str_in policy ["boot"; "weighted"])
  else if String.eqb algorithm "particle-ql"
  then negb (str_in policy ["weighted"; "vpi"])
  else false.

Definition default_policy (algorithm : string) : string :=
  if String.eqb algorithm "ql" then "eps-greedy"
  else if String.eqb algorithm "boot-ql" then "boot"
  else "weighted".

Definition known_algorithm (algorithm : string) : bool :=
  str_in algorithm ["ql"; "boot-ql"; "particle-ql"].

Definition known_name (name : string) : bool :=
  str_in name ["Taxi"; "Chain"; "Loop"; "RiverSwim"; "SixArms"].


(** All members of the ensemble are the same table. *)
Definition all_equal (E : Ensemble) : Prop :=
  forall q q', q ∈ E -> q' ∈ E -> q = q'.

Definition table_has_shape (shape : nat * nat) (q : Table) : Prop :=
  length q = fst shape /\ Forall (fun row => length row = snd shape) q.

(** A transition whose indices lie in the declared state/action space. *)
Definition transition_in_range (shape : nat * nat) (tr : Transition) : Prop :=
  (t_state tr < fst shape)%nat /\ (t_action tr < snd shape)%nat /\
  (t_next_state tr < fst shape)%nat.

Definition with_next_state (tr : Transition) (s' : nat) : Transition :=
  mkTransition (t_state tr) (t_action tr) (t_reward tr) s' (t_terminal tr).

(** What a terminal update makes of member [i]. *)
Definition terminal_member (cfg : Config) (tr : Transition) (lr : R)
    (mask : nat -> bool) (i : nat) (q : Table) : Table :=
  if selected (c_update_mode cfg) mask i
  then match table_get q (t_state tr) (t_action tr) with
       | Some old =>
           table_set q (t_state tr) (t_action tr)
             (old + lr * (t_reward tr - old))
       | None => q
       end
  else q.

(** Concrete inputs for the examples. *)
Definition toy_envs : Environments :=
  fun g => match g with
           | generate_chain _ => mkMDPInfo 5 2 0.99
           | generate_taxi _ => mkMDPInfo 4 4 0.99
           | _ => mkMDPInfo 6 2 0.99
           end.

Definition sample_of (r : R) (last : bool) : Sample :=
  mkSample 0 0 r 0 last last.

Definition toy_args (algorithm policy : string) : Args :=
  mkArgs algorithm "Chain" "deterministic" "weighted" policy 10 10000 0.

Definition fresh_generator : RandomState := mkRandomState 0 0.

From Stdlib Require Import DecimalString.

(** ** Further code of the sources: episodes of a dataset *)

(** The dataset seen as episodes: every sample with the closing flag ends
    one; [cur] are the samples of the episode in progress.  The second
    component is the unfinished episode at the end of the dataset. *)
Fixpoint split_episodes (cur : list Sample) (dataset : list Sample)
    : list (list Sample) * list Sample :=
  match dataset with
  | [] => ([], cur)
  | d :: rest =>
      if d_last d
      then let '(eps, tail) := split_episodes [] rest in
           ((cur ++ [d])%list :: eps, tail)
      else split_episodes (cur ++ [d])%list rest
  end.

(** The undiscounted return of an episode. *)
Definition reward_sum (ep : list Sample) : R := np_sum (map d_reward ep).

(** The discounted return of the samples [ep], the first of which is step
    [t] of its episode. *)
Fixpoint disc_sum (gamma : R) (t : nat) (ep : list Sample) : R :=
  match ep with
  | [] => 0
  | d :: rest => d_reward d * gamma ^ t + disc_sum gamma (S t) rest
  end.

Definition disc_return (gamma : R) (ep : list Sample) : R := disc_sum gamma 0 ep.

(** Running sums of a list, started at [base]. *)
Fixpoint cumsum_from (base : R) (l : list R) : list R :=
  match l with
  | [] => []
  | v :: rest => (base + v) :: cumsum_from (base + v) rest
  end.

(** ** [run.py]: the epoch loop of [experiment] (lines 141-177) *)

(** The collaborators of the loop, acting on a world [W] that holds the
    agent, the policy, the MDP and the collected dataset: the two optional
    setters of the policy (guarded by [hasattr] in the source), the core's
    [learn] and [evaluate], the dataset callback and the MDP. *)
Record Driver (W : Type) : Type := mkDriver {
  has_set_epsilon : policy_obj -> bool;
  has_set_eval : policy_obj -> bool;
  set_epsilon : Param -> W -> W;
  set_eval : bool -> W -> W;
  core_learn : Z -> W -> W;
  collect_get : W -> list Sample;
  collect_clean : W -> W;
  mdp_reset : W -> W;
  core_evaluate : Z -> W -> W * list Sample
}.
Arguments has_set_epsilon {W} _ _.
Arguments has_set_eval {W} _ _.
Arguments set_epsilon {W} _ _ _.
Arguments set_eval {W} _ _ _.
Arguments core_learn {W} _ _ _.
Arguments collect_get {W} _ _.
Arguments collect_clean {W} _ _.
Arguments mdp_reset {W} _ _.
Arguments core_evaluate {W} _ _ _.

(** [range(a, b)]. *)
Definition py_range (a b : Z) : list Z :=
  map (fun i => (a + Z.of_nat i)%Z) (seq 0 (Z.to_nat (b - a))).

(** The local variables the loop carries from one epoch to the next. *)
Record loop_state (W : Type) : Type := mkLoop {
  world : W;
  train_scores : list (list pyval);
  test_scores : list (list pyval)
}.
Arguments mkLoop {W} _ _ _.
Arguments world {W} _.
Arguments train_scores {W} _.
Arguments test_scores {W} _.

(** The body of the loop, lines 152-175. *)
Definition epoch {W : Type} (drv : Driver W) (s : Setup) (gamma : R)
    (st : loop_state W) (n_epoch : Z) : loop_state W :=
  let w := world st in
  let w := if has_set_epsilon drv (the_pi s)
           then set_epsilon drv (epsilon_train s) w else w in
  let w := if has_set_eval drv (the_pi s) then set_eval drv false w else w in
  let w := core_learn drv (evaluation_frequency (budget s)) w in
  let dataset := collect_get drv w in
  let scores := compute_scores dataset gamma in
  let train := (train_scores st ++ [scores])%list in
  let w := collect_clean drv w in
  let w := mdp_reset drv w in
  let w := if has_set_epsilon drv (the_pi s)
           then set_epsilon drv (epsilon_test s) w else w in
  let w := if has_set_eval drv (the_pi s) then set_eval drv true w else w in
  let '(w, dataset) := core_evaluate drv (test_samples (budget s)) w in
  let w := mdp_reset drv w in
  let scores := compute_scores dataset gamma in
  mkLoop w train (test_scores st ++ [scores])%list.

Definition n_epochs (b : Budget) : Z := (max_steps b / evaluation_frequency b)%Z.

(** Lines 147-177. *)
Definition experiment_loop {W : Type} (drv : Driver W) (s : Setup) (gamma : R)
    (w : W) : loop_state W :=
  foldl (epoch drv s gamma) (mkLoop w [] [])
    (py_range 1 (n_epochs (budget s) + 1)).

(** The collaborators may draw from the process-global generator, which is
    part of the world they act on; they never seed it anew (nothing but
    line 63 of the driver does). *)
Definition never_reseeds {W : Type} (drv : Driver (RandomState * W)) : Prop :=
  (forall p v, seeded_with (fst (set_epsilon drv p v)) = seeded_with (fst v)) /\
  (forall b v, seeded_with (fst (set_eval drv b v)) = seeded_with (fst v)) /\
  (forall n v, seeded_with (fst (core_learn drv n v)) = seeded_with (fst v)) /\
  (forall v, seeded_with (fst (collect_clean drv v)) = seeded_with (fst v)) /\
  (forall v, seeded_with (fst (mdp_reset drv v)) = seeded_with (fst v)) /\
  (forall n v, seeded_with (fst (fst (core_evaluate drv n v))) = seeded_with (fst v)).

(** [experiment] as a whole: construction, then the loop; the value
    returned is the pair of score lists.  The world the loop acts on is the
    process-global generator, as line 63 left it, together with the rest
    [w]; the generator is returned as the run leaves it. *)
Definition experiment {W : Type} (envs : Environments)
    (drv : Driver (RandomState * W))
    (os_entropy : N) (g : RandomState) (a : Args) (w : W)
    : RandomState * Py (list (list pyval) * list (list pyval)) :=
  let '(g', r) := experiment_setup envs os_entropy g a in
  match r with
  | Raise ex => (g', Raise ex)
  | Return s =>
      let st := experiment_loop drv s (gamma (envs (mdp_gen (budget s)))) (g', w) in
      (fst (world st), Return (train_scores st, test_scores st))
  end.

(** ** [run.py]: the command line (lines 179-234) *)

(** The options as given on the command line; [None] is an option left
    out. *)
Record CommandLine : Type := mkCommandLine {
  cl_name : option string;
  cl_algorithm : option string;
  cl_update_mode : option string;
  cl_update_type : option string;
  cl_policy : option string;
  cl_n_approximators : option Z;
  cl_q_max : option R;
  cl_q_min : option R;
  cl_n_experiments : option Z;
  cl_dir : option string
}.

Record Namespace : Type := mkNamespace {
  ns_args : Args;
  ns_n_experiments : Z;
  ns_dir : string
}.

Definition algorithm_choices : list string := ["ql"; "boot-ql"; "particle-ql"].
Definition update_mode_choices : list string := ["deterministic"; "randomized"].
Definition update_type_choices : list string := ["mean"; "distributional"; "weighted"].
Definition policy_choices : list string :=
  ["weighted"; "vpi"; "boot"; "boltzmann"; "eps-greedy"].

(** An option with [choices]: the default when left out, rejected (the
    parser exits) when the value is not among the choices. *)
Definition with_choices (choices : list string) (default : string)
    (o : option string) : option string :=
  match o with
  | None => Some default
  | Some v => if str_in v choices then Some v else None
  end.

Definition with_default {A : Type} (default : A) (o : option A) : A :=
  match o with
  | None => default
  | Some v => v
  end.

(** [parser.parse_args()] with the arguments declared at lines 183-217;
    [None] when the parser rejects the command line. *)
Definition parse_args (cl : CommandLine) : option Namespace :=
  match with_choices algorithm_choices "particle-ql" (cl_algorithm cl),
        with_choices update_mode_choices "deterministic" (cl_update_mode cl),
        with_choices update_type_choices "weighted" (cl_update_type cl),
        with_choices policy_choices "boot" (cl_policy cl) with
  | Some algorithm, Some update_mode, Some update_type, Some policy =>
      Some (mkNamespace
              (mkArgs algorithm (with_default "RiverSwim" (cl_name cl))
                 update_mode update_type policy
                 (with_default 10%Z (cl_n_approximators cl))
                 (with_default 10000 (cl_q_max cl))
                 (with_default 0 (cl_q_min cl)))
              (with_default 1%Z (cl_n_experiments cl))
              (with_default "./data" (cl_dir cl)))
  | _, _, _, _ => None
  end.

(** [str] of an integer. *)
Definition str_of_int (n : Z) : string := NilZero.string_of_int (Z.to_int n).

(** Line 228. *)
Definition out_dir (ns : Namespace) : string :=
  ns_dir ns ++ "/" ++ a_name (ns_args ns) ++ "/" ++ a_algorithm (ns_args ns).

(** Lines 232-233; [now] is the text of [time.time()]. *)
Definition file_name (ns : Namespace) (now : string) : string :=
  let a := ns_args ns in
  "results_" ++ a_policy a ++ "_"
  ++ (if String.eqb (a_algorithm a) "ql" then "1"
      else str_of_int (a_n_approximators a)) ++ "_"
  ++ (if negb (String.eqb (a_algorithm a) "particle-ql") then ""
      else a_update_type a) ++ "_"
  ++ now.

(** The path handed to [np.save] at line 234. *)
Definition save_target (ns : Namespace) (now : string) : string :=
  out_dir ns ++ "/" ++ file_name ns now.

(** One draw from the generator: what is drawn is a function of the seed
    material and of the number of draws made before, and the generator
    moves on. *)
Definition draw_bit (g : RandomState) : bool :=
  N.odd (seeded_with g + N.of_nat (n_draws g)).

Definition advance (g : RandomState) : RandomState :=
  mkRandomState (seeded_with g) (S (n_draws g)).

(** A small driver for the examples: the world is the global generator and
    the dataset collected so far; every training phase collects one closed
    one-step episode; every evaluation is one step, and whether it closes
    an episode is drawn from the generator. *)
Definition toy_driver : Driver (RandomState * list Sample) :=
  mkDriver (RandomState * list Sample)
    (fun _ => false) (fun _ => true)
    (fun _ v => v) (fun _ v => v)
    (fun _ v => (fst v, (snd v ++ [sample_of 1 true])%list))
    (fun v => snd v) (fun v => (fst v, [])) (fun v => v)
    (fun _ v => ((advance (fst v), snd v), [sample_of 2 (draw_bit (fst v))])).

(** The first evaluation tuple of a run, by its number of components. *)
Definition first_test_arity
    (r : Py (list (list pyval) * list (list pyval))) : option nat :=
  match r with
  | Return (_, t :: _) => Some (length t)
  | _ => None
  end.

Definition empty_command_line : CommandLine :=
  mkCommandLine None None None None None None None None None None.

(** ** [dqn_net.py]: the rest of [SimpleNet] *)

(** [get_weights]: the session values of the collected variables.  The
    trainable variables are a sub-collection of the global ones, in the same
    order; [trainable] tells, for each global variable, whether it belongs
    to it. *)
Fixpoint select_by_mask {A : Type} (mask : list bool) (l : list A) : list A :=
  match mask, l with
  | b :: mask', x :: l' =>
      if b then x :: select_by_mask mask' l' else select_by_mask mask' l'
  | _, _ => []
  end.

Definition get_weights (net : SimpleNet) (trainable : list bool)
    (only_trainable : bool) : list tensor :=
  if negb only_trainable then variables net
  else select_by_mask trainable (variables net).

(** The keyword arguments [**convnet_pars], as the dictionary the
    constructor reads; [None] is a key that was not passed. *)
Record Optimizer : Type := mkOptimizer {
  opt_name : option string;
  opt_lr : option R;
  opt_decay : option R;
  opt_epsilon : option R
}.

Record ConvnetPars : Type := mkPars {
  input_shape : option (list nat);
  output_shape : option (list nat);
  n_states_par : option (option nat);
  net_type : option string;
  optimizer : option Optimizer
}.

(** [d[key]]. *)
Definition dict_get {A : Type} (key : string) (o : option A) : Py A :=
  match o with
  | Some x => Return x
  | None => Raise (KeyError key)
  end.

(** What the session, the saver and the summary writer are asked to do. *)
Inductive effect : Type :=
| ImportMetaGraph (path : string)
| SaverRestore (path : string)
| SaverSave (path : string)
| RunPredict (tensor_name : string)
| RunTrainStep
| AddSummary (step : nat).

(** A [SimpleNet] object: the part [set_weights] works on, the names of
    the further instance attributes that have been assigned, and the values
    of those the methods read. *)
Record Net : Type := mkNetObj {
  core : SimpleNet;
  attrs : list string;
  o_folder_name : option string;
  o_scope_name : string;
  o_train_count : nat
}.

Definition hasattr (n : Net) (attr : string) : bool := str_in attr (attrs n).

(** Reading [self.attr]. *)
Definition need (n : Net) (attr : string) : Py unit :=
  if hasattr n attr then Return tt else Raise (AttributeError attr).

(** [s[:-1]]. *)
Fixpoint drop_last (s : string) : string :=
  match s with
  | EmptyString => EmptyString
  | String c EmptyString => EmptyString
  | String c rest => String c (drop_last rest)
  end.

(** The attributes [__init__] assigns before it builds or loads. *)
Definition init_attrs : list string :=
  ["_name"; "_folder_name"; "convnet_pars"; "_session"].

(** The attributes of [_restore_collection] (lines 227-237) and of the
    graph part of [_build]: the feature layers exist only for the net type
    ['features']. *)
Definition graph_attrs (features : bool) : list string :=
  (["_x"; "_action"]
   ++ (if features then ["_features_1"; "_features_2"] else [])
   ++ ["_q"; "_target_q"; "_q_acted"; "_merged"; "_train_step"])%list.

(** [_load] (lines 83-92) followed by [_restore_collection]. *)
Definition load_net (path : string) (pars : ConvnetPars)
    : list effect * Py (string * list string) :=
  let scope_name := "train/" in
  let ckpt := path ++ "/" ++ drop_last scope_name ++ "/" ++ drop_last scope_name in
  ([ImportMetaGraph (ckpt ++ ".meta"); SaverRestore ckpt],
   nt ← dict_get "net_type" (net_type pars);
   Return (scope_name, ("_scope_name" :: graph_attrs (String.eqb nt "features"))%list)).

Definition known_optimizers : list string :=
  ["rmspropcentered"; "rmsprop"; "adam"; "adadelta"].

(** The optimizer dispatch of lines 176-191, with the keys each branch
    reads. *)
Definition make_optimizer (o : Optimizer) : Py unit :=
  name ← dict_get "name" (opt_name o);
  if String.eqb name "rmspropcentered" || String.eqb name "rmsprop" then
    _ ← dict_get "lr" (opt_lr o);
    _ ← dict_get "decay" (opt_decay o);
    _ ← dict_get "epsilon" (opt_epsilon o);
    Return tt
  else if String.eqb name "adam" || String.eqb name "adadelta" then
    _ ← dict_get "lr" (opt_lr o); Return tt
  else Raise ValueError.

(** [tf.variable_scope(None, default_name=name)], line 96: with no name
    to fall back on there is no scope to open, and TensorFlow raises
    [TypeError]. *)
Definition variable_scope (default_name : option string) : Py unit :=
  match default_name with
  | Some _ => Return tt
  | None => Raise TypeError
  end.

(** [_build] (lines 94-209); [scope] is the name scope the graph opens for
    the network at line 96, the network's name made unique.  The layers and
    the loss are taken to build; the errors are the missing name, a missing
    key, an empty output shape and the unknown optimizer. *)
Definition build_net (name : option string) (scope : string)
    (folder_name : option string) (pars : ConvnetPars)
    : Py (string * list string * nat) :=
  _ ← variable_scope name;
  let scope_name := scope ++ "/" in
  _ ← dict_get "input_shape" (input_shape pars);
  out ← dict_get "output_shape" (output_shape pars);
  _ ← getitem out 0;
  _ ← dict_get "n_states" (n_states_par pars);
  nt ← dict_get "net_type" (net_type pars);
  o ← dict_get "optimizer" (optimizer pars);
  _ ← make_optimizer o;
  Return (scope_name,
          ("_scope_name" :: graph_attrs (String.eqb nt "features")
           ++ (match folder_name with Some _ => ["_train_writer"] | None => [] end)
           ++ ["_train_count"])%list,
          0%nat).

(** [SimpleNet(name, folder_name, load_path, **convnet_pars)]; [vars] are
    the values of the global variables collected under the scope once the
    graph is built or loaded. *)
Definition SimpleNet_new (name folder_name load_path : option string)
    (pars : ConvnetPars) (scope : string) (vars : list tensor)
    : list effect * Py Net :=
  let '(effs, r) :=
    match load_path with
    | Some path =>
        let '(effs, r) := load_net path pars in
        (effs, '(sn, ats) ← r; Return (sn, ats, 0%nat))
    | None => ([], build_net name scope folder_name pars)
    end in
  (effs,
   '(sn, ats, count) ← r;
   let extra :=
     if bool_decide (name = Some "train") then ["_train_saver"]
     else if bool_decide (name = Some "target") then ["_target_w"; "_w"]
     else [] in
   Return (mkNetObj (SimpleNet_init name vars)
             (init_attrs ++ ats ++ extra)%list folder_name sn count)).

(** [predict(s, features)]: the name of the tensor that is run. *)
Definition predict (n : Net) (features : bool) : Py effect :=
  _ ← need n "_session";
  if negb features then
    _ ← need n "_q"; _ ← need n "_x"; Return (RunPredict "_q")
  else
    _ ← need n "_features_2"; _ ← need n "_x";
    Return (RunPredict "_features_2").

(** [fit(s, a, q)] (lines 45-55): the object afterwards, what was done, and
    how the call ended. *)
Definition fit (n : Net) : Net * list effect * Py unit :=
  match (_ ← need n "_session"; _ ← need n "_merged"; _ ← need n "_train_step";
         _ ← need n "_x"; _ ← need n "_action"; need n "_target_q") with
  | Raise e => (n, [], Raise e)
  | Return _ =>
      let effs := [RunTrainStep] in
      if hasattr n "_train_writer" then
        match need n "_train_count" with
        | Raise e => (n, effs, Raise e)
        | Return _ =>
            (mkNetObj (core n) (attrs n) (o_folder_name n) (o_scope_name n)
               (S (o_train_count n)),
             (effs ++ [AddSummary (o_train_count n)])%list, Return tt)
        end
      else
        match need n "_train_count" with
        | Raise e => (n, effs, Raise e)
        | Return _ =>
            (mkNetObj (core n) (attrs n) (o_folder_name n) (o_scope_name n)
               (S (o_train_count n)),
             effs, Return tt)
        end
  end.

(** [k] calls of [fit] in a row, stopping at the first exception. *)
Fixpoint fits (k : nat) (n : Net) : Net * list effect * Py unit :=
  match k with
  | O => (n, [], Return tt)
  | S k' =>
      match fit n with
      | (n', effs, Return _) =>
          let '(n'', effs', r) := fits k' n' in (n'', (effs ++ effs')%list, r)
      | (n', effs, Raise e) => (n', effs, Raise e)
      end
  end.

(** How [save] can end: [TypeError] is the concatenation of [None] with a
    string. *)
Inductive save_result : Type :=
| Saved (path : string)
| SaveAttributeError (attr : string)
| SaveTypeError.

(** [save()] (lines 76-81). *)
Definition save (n : Net) : save_result :=
  if negb (hasattr n "_train_saver") then SaveAttributeError "_train_saver"
  else if negb (hasattr n "_session") then SaveAttributeError "_session"
  else match o_folder_name n with
       | None => SaveTypeError
       | Some folder =>
           if negb (hasattr n "_scope_name") then SaveAttributeError "_scope_name"
           else Saved (folder ++ "/" ++ drop_last (o_scope_name n) ++ "/"
                       ++ drop_last (o_scope_name n))
       end.

(** The property [n_features] (lines 211-213). *)
Definition n_features (n : Net) : Py unit := need n "_features".

Definition toy_pars (nt opt : string) : ConvnetPars :=
  mkPars (Some [4%nat]) (Some [2%nat]) (Some None) (Some nt)
    (Some (mkOptimizer (Some opt) (Some 0.001) (Some 0.95) (Some 0.01))).

(** The attributes that depend on the name, and on the folder. *)
Definition name_attrs (name : option string) : list string :=
  if bool_decide (name = Some "train") then ["_train_saver"]
  else if bool_decide (name = Some "target") then ["_target_w"; "_w"]
  else [].

Definition writer_attrs (folder_name : option string) : list string :=
  match folder_name with Some _ => ["_train_writer"] | None => [] end.

Definition with_count (n : Net) (c : nat) : Net :=
  mkNetObj (core n) (attrs n) (o_folder_name n) (o_scope_name n) c.

(** What one successful [fit] asks for, at summary step [i]. *)
Definition fit_effects (writer : bool) (i : nat) : list effect :=
  RunTrainStep :: (if writer then [AddSummary i] else []).

(** Membership of an attribute name in the attributes of a constructed
    network, decided by cases on the net type, the folder and the name. *)
Ltac decide_attribute :=
  unfold hasattr, need, hasattr; cbn [attrs];
  unfold name_attrs, writer_attrs;
  repeat match goal with
    | |- context [String.eqb ?nt "features"] =>
        is_var nt; destruct (String.eqb nt "features")
    | |- context [bool_decide ?P] => destruct (bool_decide P)
    | |- context [match ?f with Some _ => _ | None => _ end] =>
        is_var f; destruct f
    end;
  reflexivity.


(** Decide the next string test of a cascade of [if]s. *)
Ltac next_string_test H :=
  match goal with
  | |- context [String.eqb ?x ?y] =>
      destruct (String.eqb x y); cbn [orb] in H
  end.

(** * Sanity checks of the definitions on concrete inputs *)

Example compute_scores_one_episode :
  compute_scores [sample_of 1 false; sample_of 2 true] 1
  = [ PyFloat (np_min [0 + 1 + 2]); PyFloat (np_max [0 + 1 + 2]);
      PyFloat (np_mean [0 + 1 + 2]); PyFloat (np_std [0 + 1 + 2]);
      PyFloat (np_min [0 + 1 * 1 ^ 0 + 2 * 1 ^ 1]);
      PyFloat (np_max [0 + 1 * 1 ^ 0 + 2 * 1 ^ 1]);
      PyFloat (np_mean [0 + 1 * 1 ^ 0 + 2 * 1 ^ 1]);
      PyFloat (np_std [0 + 1 * 1 ^ 0 + 2 * 1 ^ 1]);
      PyFloat (np_mean [INR 2]); PyInt 1 ].
Proof. reflexivity. Qed.

Example select_mdp_chain :
  select_mdp "Chain" = Return (mkBudget (generate_chain 1000) 100000 10000 10000).
Proof. reflexivity. Qed.

Example select_mdp_unknown : select_mdp "Maze" = Raise NotImplementedError.
Proof. reflexivity. Qed.

(** * Properties of [compute_scores] *)

Lemma score_loop_lengths (gamma : R) (dataset : list Sample) (acc : score_acc) :
  let acc' := foldl (score_step gamma) acc dataset in
  length (scores acc') = (length (scores acc) + n_last dataset)%nat /\
  length (disc_scores acc') = (length (disc_scores acc) + n_last dataset)%nat /\
  length (lens acc') = (length (lens acc) + n_last dataset)%nat /\
  n_episodes acc' = (n_episodes acc + n_last dataset)%nat.
Proof.
  revert acc. induction dataset as [|d ds IH]; intros acc; cbn [foldl].
  - unfold n_last; cbn. repeat split; lia.
  - specialize (IH (score_step gamma acc d)). cbn zeta in IH.
    destruct IH as (H1 & H2 & H3 & H4).
    unfold n_last in *. cbn [List.filter].
    unfold score_step in *. destruct (d_last d) eqn:Hd; cbn in *.
    + rewrite H1, H2, H3, H4. rewrite !length_app. cbn. repeat split; lia.
    + rewrite H1, H2, H3, H4. repeat split; lia.
Qed.

Lemma n_last_existsb (dataset : list Sample) :
  existsb d_last dataset = true <-> (0 < n_last dataset)%nat.
Proof.
  unfold n_last. induction dataset as [|d ds IH]; cbn.
  - split; [discriminate | lia].
  - destruct (d_last d); cbn.
    + split; [lia | reflexivity].
    + exact IH.
Qed.

(** * Properties of the construction phase of [experiment] *)

Example ql_with_boltzmann_is_kept :
  exists s, snd (experiment_setup toy_envs 7 fresh_generator (toy_args "ql" "boltzmann"))
            = Return s /\ warnings s = [] /\ policy_name s = "boltzmann".
Proof. eexists. split; [reflexivity|]. split; reflexivity. Qed.

Example unknown_algorithm_raises :
  snd (experiment_setup toy_envs 7 fresh_generator (toy_args "sarsa" "boot"))
  = Raise ValueError.
Proof. reflexivity. Qed.

Lemma select_mdp_known (name : string) :
  known_name name = true -> exists b, select_mdp name = Return b.
Proof.
  unfold known_name, str_in, select_mdp. cbn [existsb]. intros H.
  do 5 (next_string_test H; [eexists; reflexivity|]).
  discriminate H.
Qed.

Lemma select_mdp_unknown_raises (name : string) :
  known_name name = false -> select_mdp name = Raise NotImplementedError.
Proof.
  unfold known_name, str_in, select_mdp. cbn [existsb]. intros H.
  do 5 (next_string_test H; [discriminate H|]).
  reflexivity.
Qed.

Lemma build_agent_invalid (info : MDPInfo) (lr : Param) (a : Args) :
  invalid_combination (a_algorithm a) (a_policy a) = true ->
  exists w pi ag eps,
    build_agent info lr a = Return ([w], default_policy (a_algorithm a), pi, ag, eps) /\
    policy_dict (default_policy (a_algorithm a)) = Return (pi_class pi).
Proof.
  destruct a as [alg name um ut pol n qmax qmin]. cbn.
  unfold invalid_combination, build_agent, default_policy. cbn.
  intros H.
  destruct (String.eqb alg "ql") eqn:E1.
  { rewrite H. cbn. do 4 eexists. split; reflexivity. }
  destruct (String.eqb alg "boot-ql") eqn:E2.
  { rewrite H. cbn. do 4 eexists. split; reflexivity. }
  destruct (String.eqb alg "particle-ql") eqn:E3; [|discriminate].
  rewrite H. cbn. do 4 eexists. split; reflexivity.
Qed.

(** C5, as the code has it: an invalid algorithm/policy combination does not
    make [experiment] raise; one warning is issued and the default policy
    of the algorithm (eps-greedy, boot, weighted) is substituted. *)
Theorem invalid_combination_warns_and_substitutes
    (envs : Environments) (e : N) (g : RandomState) (a : Args) :
  known_name (a_name a) = true ->
  invalid_combination (a_algorithm a) (a_policy a) = true ->
  exists s,
    snd (experiment_setup envs e g a) = Return s /\
    length (warnings s) = 1%nat /\
    policy_name s = default_policy (a_algorithm a) /\
    policy_dict (default_policy (a_algorithm a)) = Return (pi_class (the_pi s)).
Proof.
  intros Hn Hi. unfold experiment_setup. cbn [snd].
  destruct (select_mdp_known _ Hn) as [b Hb]. rewrite Hb. cbn.
  destruct (build_agent_invalid (envs (mdp_gen b))
              (ExponentialDecayParameter_new 1 0.3 (info_size (envs (mdp_gen b)))) a Hi)
    as (w & pi & ag & eps & Hba & Hpd).
  rewrite Hba. cbn. eexists. split; [reflexivity|]. cbn. auto.
Qed.

Lemma invalid_combination_warns_and_substitutes_witness :
  exists s,
    snd (experiment_setup toy_envs 7 fresh_generator (toy_args "boot-ql" "vpi"))
    = Return s /\
    length (warnings s) = 1%nat /\
    policy_name s = default_policy "boot-ql" /\
    policy_dict (default_policy "boot-ql") = Return (pi_class (the_pi s)).
Proof.
  apply (invalid_combination_warns_and_substitutes toy_envs 7 fresh_generator
           (toy_args "boot-ql" "vpi")); reflexivity.
Defined.

(** C5, as stated, fails: plain Q-learning asked to run with the
    bootstrapped policy is an invalid combination, and the construction
    returns normally with eps-greedy in its place. *)
Lemma invalid_combination_does_not_raise :
  invalid_combination "ql" "boot" = true /\
  ~ raises (snd (experiment_setup toy_envs 7 fresh_generator (toy_args "ql" "boot"))) /\
  exists s,
    snd (experiment_setup toy_envs 7 fresh_generator (toy_args "ql" "boot")) = Return s /\
    policy_name s = "eps-greedy" /\
    warnings s = ["QL available with only boltzmann and eps-greedy policies!"].
Proof.
  split; [reflexivity|]. split.
  - intros H. exact H.
  - eexists. split; [reflexivity|]. split; reflexivity.
Qed.

Lemma Table_new_get (shape : nat * nat) (v : R) (s a : nat) :
  (s < fst shape)%nat -> (a < snd shape)%nat ->
  table_get (Table_new shape v) s a = Some v.
Proof.
  intros Hs Ha. unfold table_get, Table_new.
  rewrite lookup_replicate_2 by exact Hs.
  apply lookup_replicate_2. exact Ha.
Qed.

(** A policy that passed the membership test of its algorithm is a key of
    [policy_dict]. *)
Lemma policy_dict_listed (policy : string) (l : list string) :
  str_in policy l = true ->
  Forall (fun k => exists c, policy_dict k = Return c) l ->
  exists c, policy_dict policy = Return c.
Proof.
  unfold str_in. induction l as [|k l IH]; cbn [existsb]; intros H HF.
  - discriminate H.
  - inversion HF as [|? ? Hk HF']; subst.
    destruct (String.eqb policy k) eqn:E.
    + apply String.eqb_eq in E. subst k. exact Hk.
    + apply IH; assumption.
Qed.

Lemma build_agent_ql (info : MDPInfo) (lr : Param) (a : Args) :
  a_algorithm a = "ql" ->
  exists w p pi eps,
    build_agent info lr a
    = Return (w, p, pi,
              QLearning pi info lr (Table_new (info_shape info) (a_q_max a)), eps).
Proof.
  intros Ha. unfold build_agent. rewrite Ha.
  change (String.eqb "ql" "ql") with true. cbv iota.
  destruct (str_in (a_policy a) ["boltzmann"; "eps-greedy"]) eqn:Hp; cbn [negb].
  - destruct (policy_dict_listed _ _ Hp) as [c Hc].
    { repeat constructor; eexists; reflexivity. }
    rewrite Hc. cbn [mbind Py_bind py_bind]. do 4 eexists. reflexivity.
  - change (policy_dict "eps-greedy") with (Return EpsGreedy).
    cbn [mbind Py_bind py_bind]. do 4 eexists. reflexivity.
Qed.

Lemma build_agent_boot (info : MDPInfo) (lr : Param) (a : Args) :
  a_algorithm a = "boot-ql" ->
  exists w p pi eps,
    build_agent info lr a
    = Return (w, p, pi,
              BootstrappedQLearning pi info (a_n_approximators a)
                ((a_q_max a + a_q_min a) / 2) (a_q_max a - a_q_min a) lr, eps).
Proof.
  intros Ha. unfold build_agent. rewrite Ha.
  change (String.eqb "boot-ql" "ql") with false.
  change (String.eqb "boot-ql" "boot-ql") with true. cbv iota.
  destruct (str_in (a_policy a) ["boot"; "weighted"]) eqn:Hp; cbn [negb].
  - destruct (policy_dict_listed _ _ Hp) as [c Hc].
    { repeat constructor; eexists; reflexivity. }
    rewrite Hc. cbn [mbind Py_bind py_bind]. do 4 eexists. reflexivity.
  - change (policy_dict "boot") with (Return BootPolicy).
    cbn [mbind Py_bind py_bind]. do 4 eexists. reflexivity.
Qed.

Lemma build_agent_particle (info : MDPInfo) (lr : Param) (a : Args) :
  a_algorithm a = "particle-ql" ->
  exists w p pi eps,
    build_agent info lr a
    = Return (w, p, pi,
              ParticleQLearning pi info (a_n_approximators a)
                (a_update_mode a) (a_update_type a) (a_q_max a) (a_q_min a) lr,
              eps).
Proof.
  intros Ha. unfold build_agent. rewrite Ha.
  change (String.eqb "particle-ql" "ql") with false.
  change (String.eqb "particle-ql" "boot-ql") with false.
  change (String.eqb "particle-ql" "particle-ql") with true. cbv iota.
  destruct (str_in (a_policy a) ["weighted"; "vpi"]) eqn:Hp; cbn [negb].
  - destruct (policy_dict_listed _ _ Hp) as [c Hc].
    { repeat constructor; eexists; reflexivity. }
    rewrite Hc. cbn [mbind Py_bind py_bind]. do 4 eexists. reflexivity.
  - change (policy_dict "weighted") with (Return WeightedPolicy).
    cbn [mbind Py_bind py_bind]. do 4 eexists. reflexivity.
Qed.

(** C8: plain Q-learning gets a table holding [q_max] in every entry of the
    state/action space; bootstrapped Q-learning is constructed with
    [mu = (q_max + q_min) / 2] and [sigma = q_max - q_min]; particle
    Q-learning is handed [q_max] and [q_min] themselves. *)
Theorem agent_initialisation
    (envs : Environments) (e : N) (g : RandomState) (a : Args) (b : Budget) :
  select_mdp (a_name a) = Return b ->
  let info := envs (mdp_gen b) in
  (a_algorithm a = "ql" ->
     exists s pi lr,
       snd (experiment_setup envs e g a) = Return s /\
       the_agent s = QLearning pi info lr (Table_new (info_shape info) (a_q_max a)) /\
       forall st ac, (st < n_states info)%nat -> (ac < n_actions info)%nat ->
         table_get (Table_new (info_shape info) (a_q_max a)) st ac = Some (a_q_max a)) /\
  (a_algorithm a = "boot-ql" ->
     exists s pi lr,
       snd (experiment_setup envs e g a) = Return s /\
       the_agent s = BootstrappedQLearning pi info (a_n_approximators a)
                       ((a_q_max a + a_q_min a) / 2) (a_q_max a - a_q_min a) lr) /\
  (a_algorithm a = "particle-ql" ->
     exists s pi lr,
       snd (experiment_setup envs e g a) = Return s /\
       the_agent s = ParticleQLearning pi info (a_n_approximators a)
                       (a_update_mode a) (a_update_type a)
                       (a_q_max a) (a_q_min a) lr).
Proof.
  intros Hb info. unfold experiment_setup. cbn [snd]. rewrite Hb.
  cbn [mbind Py_bind py_bind]. fold info.
  set (lr := ExponentialDecayParameter_new 1 0.3 (info_size info)).
  split; [|split]; intros Ha.
  - destruct (build_agent_ql info lr a Ha) as (w & p & pi & eps & Hba).
    rewrite Hba. cbn. do 3 eexists. split; [reflexivity|]. split; [reflexivity|].
    intros st ac Hs Hac. apply (Table_new_get (info_shape info)); assumption.
  - destruct (build_agent_boot info lr a Ha) as (w & p & pi & eps & Hba).
    rewrite Hba. cbn. do 3 eexists. split; reflexivity.
  - destruct (build_agent_particle info lr a Ha) as (w & p & pi & eps & Hba).
    rewrite Hba. cbn. do 3 eexists. split; reflexivity.
Qed.

Lemma agent_initialisation_witness :
  (exists s pi lr,
     snd (experiment_setup toy_envs 7 fresh_generator (toy_args "ql" "boltzmann"))
     = Return s /\
     the_agent s = QLearning pi (toy_envs (generate_chain 1000)) lr
                     (Table_new (5, 2)%nat 10000) /\
     forall st ac, (st < 5)%nat -> (ac < 2)%nat ->
       table_get (Table_new (5, 2)%nat 10000) st ac = Some 10000) /\
  (exists s pi lr,
     snd (experiment_setup toy_envs 7 fresh_generator (toy_args "boot-ql" "boot"))
     = Return s /\
     the_agent s = BootstrappedQLearning pi (toy_envs (generate_chain 1000)) 10
                     ((10000 + 0) / 2) (10000 - 0) lr).
Proof.
  split.
  - apply (proj1 (agent_initialisation toy_envs 7 fresh_generator
                    (toy_args "ql" "boltzmann") _ eq_refl)).
    reflexivity.
  - apply (proj1 (proj2 (agent_initialisation toy_envs 7 fresh_generator
                    (toy_args "boot-ql" "boot") _ eq_refl))).
    reflexivity.
Defined.

(** The construction phase raises exactly for an unknown environment name
    or an unknown algorithm. *)
Lemma experiment_raises_iff
    (envs : Environments) (e : N) (g : RandomState) (a : Args) :
  raises (snd (experiment_setup envs e g a)) <->
  known_name (a_name a) = false \/ known_algorithm (a_algorithm a) = false.
Proof.
  unfold experiment_setup. cbn [snd].
  destruct (known_name (a_name a)) eqn:Hn.
  - destruct (select_mdp_known _ Hn) as [b Hb]. rewrite Hb.
    cbn [mbind Py_bind py_bind].
    set (info := envs (mdp_gen b)).
    set (lr := ExponentialDecayParameter_new 1 0.3 (info_size info)).
    unfold known_algorithm, str_in. cbn [existsb].
    destruct (String.eqb (a_algorithm a) "ql") eqn:E1.
    { apply String.eqb_eq in E1.
      destruct (build_agent_ql info lr a E1) as (w & p & pi & eps & ->).
      cbn. split; [intros [] | intros [H|H]; discriminate H]. }
    destruct (String.eqb (a_algorithm a) "boot-ql") eqn:E2.
    { apply String.eqb_eq in E2.
      destruct (build_agent_boot info lr a E2) as (w & p & pi & eps & ->).
      cbn. split; [intros [] | intros [H|H]; discriminate H]. }
    destruct (String.eqb (a_algorithm a) "particle-ql") eqn:E3.
    { apply String.eqb_eq in E3.
      destruct (build_agent_particle info lr a E3) as (w & p & pi & eps & ->).
      cbn. split; [intros [] | intros [H|H]; discriminate H]. }
    unfold build_agent. rewrite E1, E2, E3. cbn. split; [auto | intros _; exact I].
  - rewrite (select_mdp_unknown_raises _ Hn). cbn. split; [auto | intros _; exact I].
Qed.

(** * Properties of the learning-rate parameter *)

Example learning_rate_first_visit :
  exists p,
    param_call (ExponentialDecayParameter_new 1 0.3 [5; 2]%nat) [3; 1]%nat
    = Return (p, 1 / Rpower (INR 1) 0.3) /\ p_n_updates p [3; 1]%nat = 1%nat
    /\ p_n_updates p [3; 0]%nat = 0%nat.
Proof. eexists. split; [reflexivity|]. split; reflexivity. Qed.

Example learning_rate_out_of_range :
  param_call (ExponentialDecayParameter_new 1 0.3 [5; 2]%nat) [5; 0]%nat
  = Raise IndexError.
Proof. reflexivity. Qed.

Lemma param_idx_update (p : Param) (i j : list nat) :
  param_idx (param_update p i) j = param_idx p j.
Proof. reflexivity. Qed.

Lemma param_call_in_range (p : Param) (idx : list nat) :
  idx_in_range (param_idx p idx) (p_size p) = true ->
  param_call p idx
  = Return (param_update p (param_idx p idx),
            param_compute (param_update p (param_idx p idx)) (param_idx p idx)).
Proof. intros H. unfold param_call. cbn zeta. rewrite H. reflexivity. Qed.







(** * Properties of [SimpleNet.set_weights] *)

Example set_weights_target_two :
  set_weights (SimpleNet_init (Some "target") [vec [0]; vec [0; 0]])
    [vec [1]; vec [2; 3]]
  = (mkNet (Some "target") [vec [1]; vec [2; 3]]
       (Some [mkPlaceholder 0 [1%nat]; mkPlaceholder 1 [2%nat]])
       (Some [mkAssign 0 (mkPlaceholder 0 [1%nat]);
              mkAssign 1 (mkPlaceholder 1 [2%nat])]),
     Return tt).
Proof. reflexivity. Qed.

Example set_weights_too_short :
  set_weights (SimpleNet_init (Some "target") [vec [0]; vec [0; 0]]) [vec [1]]
  = (SimpleNet_init (Some "target") [vec [0]; vec [0; 0]], Raise AssertionError).
Proof. reflexivity. Qed.

(** A value of another shape is refused when its turn comes: the variables
    before it were already assigned. *)
Example set_weights_wrong_shape :
  set_weights (SimpleNet_init (Some "target") [vec [0]; vec [0; 0]])
    [vec [1]; vec [2]]
  = (mkNet (Some "target") [vec [1]; vec [0; 0]]
       (Some [mkPlaceholder 0 [1%nat]; mkPlaceholder 1 [2%nat]])
       (Some [mkAssign 0 (mkPlaceholder 0 [1%nat]);
              mkAssign 1 (mkPlaceholder 1 [2%nat])]),
     Raise ValueError).
Proof. reflexivity. Qed.

Lemma set_weights_length_mismatch (net : SimpleNet) (weights : list tensor) :
  length (variables net) <> length weights ->
  set_weights net weights = (net, Raise AssertionError).
Proof.
  intros H. unfold set_weights.
  destruct (Nat.eqb_spec (length (variables net)) (length weights)) as [E|_];
    [contradiction|].
  reflexivity.
Qed.

(** The placeholders and assign operations [__init__] makes for variables
    of the given shapes. *)
Lemma init_ops_lookup (shapes : list (list nat)) (k : nat) (sh : list nat) :
  shapes !! k = Some sh ->
  imap (fun i sh => mkAssign i (mkPlaceholder i sh)) shapes !! k
  = Some (mkAssign k (mkPlaceholder k sh)) /\
  imap mkPlaceholder shapes !! k = Some (mkPlaceholder k sh).
Proof.
  intros Hk. split; rewrite list_lookup_imap, Hk; reflexivity.
Qed.

(** One iteration on a target network, by the shape of the value. *)
Lemma set_weights_step_target (name : option string) (vs cur ws : list tensor)
    (k : nat) (v w : tensor) :
  vs !! k = Some v -> ws !! k = Some w ->
  let phs := Some (imap mkPlaceholder (map t_shape vs)) in
  let ops := Some (imap (fun i sh => mkAssign i (mkPlaceholder i sh))
                     (map t_shape vs)) in
  set_weights_step (mkNet name cur phs ops) ws k
  = if bool_decide (t_shape w = t_shape v)
    then Return (mkNet name (<[k := w]> cur) phs ops)
    else Raise ValueError.
Proof.
  intros Hv Hw phs ops.
  assert (map t_shape vs !! k = Some (t_shape v)) as Hsh.
  { rewrite list_lookup_fmap, Hv. reflexivity. }
  destruct (init_ops_lookup (map t_shape vs) k (t_shape v) Hsh) as [Hop Hph].
  subst phs ops. unfold set_weights_step, getattr, getitem. cbn [_w _target_w].
  cbn [mbind Py_bind py_bind]. rewrite Hop. cbn [mbind Py_bind py_bind].
  rewrite Hph. cbn [mbind Py_bind py_bind]. rewrite Hw.
  cbn [mbind Py_bind py_bind].
  unfold session_run. cbn [assign_from assign_var ph_id ph_shape].
  rewrite Nat.eqb_refl. cbn [_name variables _target_w _w].
  reflexivity.
Qed.

(** Running the loop over the indices [k .. k+m-1] of a target network
    whose first [k] variables already hold the new weights, when the values
    at those indices have the shapes of the variables. *)
Lemma set_weights_loop_target (name : option string) (vs ws : list tensor) :
  length vs = length ws ->
  forall m k, (k + m <= length vs)%nat ->
    (forall i v w, (k <= i < k + m)%nat -> vs !! i = Some v -> ws !! i = Some w ->
                   t_shape w = t_shape v) ->
    let phs := Some (imap mkPlaceholder (map t_shape vs)) in
    let ops := Some (imap (fun i sh => mkAssign i (mkPlaceholder i sh))
                       (map t_shape vs)) in
    set_weights_loop (mkNet name (take k ws ++ drop k vs) phs ops) ws (seq k m)
    = (mkNet name (take (k + m) ws ++ drop (k + m) vs) phs ops, Return tt).
Proof.
  intros Hlen m. induction m as [|m IH]; intros k Hk Hsh phs ops.
  - cbn. rewrite Nat.add_0_r. reflexivity.
  - cbn [seq set_weights_loop].
    assert (k < length vs)%nat as Hlt by lia.
    destruct (lookup_lt_is_Some_2 ws k) as [w Hw]; [lia|].
    destruct (lookup_lt_is_Some_2 vs k) as [v Hv]; [lia|].
    subst phs ops.
    rewrite (set_weights_step_target name vs _ ws k v w Hv Hw).
    rewrite bool_decide_eq_true_2 by (apply (Hsh k); [lia | exact Hv | exact Hw]).
    replace (<[k:=w]> (take k ws ++ drop k vs)%list)
      with (take (S k) ws ++ drop (S k) vs)%list.
    + specialize (IH (S k)). cbn zeta in IH.
      rewrite IH; [|lia|].
      * replace (S k + m)%nat with (k + S m)%nat by lia. reflexivity.
      * intros i v' w' Hi. apply Hsh. lia.
    + rewrite insert_app_r_alt by (rewrite length_take; lia).
      rewrite length_take, Nat.min_l by lia. rewrite Nat.sub_diag.
      rewrite (take_S_r ws k w Hw).
      rewrite (drop_S vs v k Hv). cbn. rewrite <- app_assoc. reflexivity.
Qed.

Lemma set_weights_loop_app (net : SimpleNet) (ws : list tensor) (l1 l2 : list nat) :
  set_weights_loop net ws (l1 ++ l2)%list
  = match set_weights_loop net ws l1 with
    | (net', Return _) => set_weights_loop net' ws l2
    | (net', Raise e) => (net', Raise e)
    end.
Proof.
  revert net. induction l1 as [|i l1 IH]; intros net; cbn [app set_weights_loop].
  - reflexivity.
  - destruct (set_weights_step net ws i) as [e|net']; [reflexivity | apply IH].
Qed.

(** Values that have, index by index, the shapes of the variables. *)
Lemma shapes_agree_lookup (vars weights : list tensor) :
  Forall2 (fun v w => t_shape w = t_shape v) vars weights ->
  forall i v w, vars !! i = Some v -> weights !! i = Some w -> t_shape w = t_shape v.
Proof.
  intros HF i v w Hv Hw.
  destruct (Forall2_lookup_l _ _ _ _ _ HF Hv) as (w' & Hw' & Hs).
  rewrite Hw in Hw'. injection Hw' as <-. exact Hs.
Qed.

(** The whole call on a target network fed values of the right shapes. *)
Lemma set_weights_shapes_agree (vars weights : list tensor) (name : option string) :
  Forall2 (fun v w => t_shape w = t_shape v) vars weights ->
  let phs := Some (imap mkPlaceholder (map t_shape vars)) in
  let ops := Some (imap (fun i sh => mkAssign i (mkPlaceholder i sh))
                     (map t_shape vars)) in
  set_weights (mkNet name vars phs ops) weights
  = (mkNet name weights phs ops, Return tt).
Proof.
  intros HF phs ops. pose proof (Forall2_length _ _ _ HF) as Hlen.
  unfold set_weights. cbn [variables].
  rewrite Hlen, Nat.eqb_refl. cbn [negb]. rewrite <- Hlen.
  pose proof (set_weights_loop_target name vars weights Hlen (length vars) 0%nat) as HL.
  cbn zeta in HL. rewrite take_0, drop_0, Nat.add_0_l in HL. cbn [app] in HL.
  subst phs ops. rewrite HL.
  - rewrite take_ge by lia. rewrite drop_all, app_nil_r. reflexivity.
  - lia.
  - intros i v w _. apply (shapes_agree_lookup vars weights HF).
Qed.

(** The whole call on a target network when the value at index [k] is the
    first of another shape. *)
Lemma set_weights_first_wrong_shape (vars weights : list tensor)
    (name : option string) (k : nat) (v w : tensor) :
  length vars = length weights ->
  vars !! k = Some v -> weights !! k = Some w -> t_shape w <> t_shape v ->
  (forall i v' w', (i < k)%nat -> vars !! i = Some v' -> weights !! i = Some w' ->
                   t_shape w' = t_shape v') ->
  let phs := Some (imap mkPlaceholder (map t_shape vars)) in
  let ops := Some (imap (fun i sh => mkAssign i (mkPlaceholder i sh))
                     (map t_shape vars)) in
  set_weights (mkNet name vars phs ops) weights
  = (mkNet name (take k weights ++ drop k vars) phs ops, Raise ValueError).
Proof.
  intros Hlen Hv Hw Hne Hbefore phs ops.
  pose proof (lookup_lt_Some _ _ _ Hv) as Hk.
  unfold set_weights. cbn [variables].
  rewrite Hlen, Nat.eqb_refl. cbn [negb]. rewrite <- Hlen.
  replace (length vars) with (k + S (length vars - S k))%nat by lia.
  rewrite seq_app, set_weights_loop_app.
  pose proof (set_weights_loop_target name vars weights Hlen k 0%nat) as HL.
  cbn zeta in HL. rewrite take_0, drop_0, Nat.add_0_l in HL. cbn [app] in HL.
  subst phs ops. rewrite HL.
  - cbn [Nat.add seq set_weights_loop].
    rewrite (set_weights_step_target name vars _ weights k v w Hv Hw).
    rewrite bool_decide_eq_false_2 by exact Hne. reflexivity.
  - lia.
  - intros i v' w' Hi. apply Hbefore. lia.
Qed.

(** C10, as the code has it: a length mismatch fails on the assertion with
    no weight assigned, for every network.  With matching lengths, on a
    network constructed with the name ['target'] (the only case in which
    [__init__] creates the assign operations), every variable [i] is
    assigned [weights[i]] when each value has the shape of its variable;
    when the value at index [k] is the first of another shape, the session
    refuses it with [ValueError] after the variables before [k] were
    assigned, and the others keep their values.  Any other network with at
    least one variable fails on the missing attribute [_w], with no weight
    assigned. *)
Theorem set_weights_assigns_on_target
    (name : option string) (vars weights : list tensor) :
  let net := SimpleNet_init name vars in
  (length vars <> length weights ->
     set_weights net weights = (net, Raise AssertionError)) /\
  (name = Some "target" ->
     Forall2 (fun v w => t_shape w = t_shape v) vars weights ->
     set_weights net weights
     = (mkNet name weights (_target_w net) (_w net), Return tt) /\
     forall i, variables (fst (set_weights net weights)) !! i = weights !! i) /\
  (name = Some "target" -> length vars = length weights ->
     forall k v w,
       vars !! k = Some v -> weights !! k = Some w -> t_shape w <> t_shape v ->
       (forall i v' w', (i < k)%nat -> vars !! i = Some v' ->
                        weights !! i = Some w' -> t_shape w' = t_shape v') ->
       set_weights net weights
       = (mkNet name (take k weights ++ drop k vars) (_target_w net) (_w net),
          Raise ValueError)) /\
  (length vars = length weights -> name <> Some "target" -> vars <> [] ->
     set_weights net weights = (net, Raise (AttributeError "_w"))).
Proof.
  intros net. split; [|split; [|split]].
  - intros H. apply set_weights_length_mismatch.
    subst net. unfold SimpleNet_init. destruct (bool_decide _); exact H.
  - intros Hname HF.
    assert (set_weights net weights
            = (mkNet name weights (_target_w net) (_w net), Return tt)) as Hsw.
    { subst net. unfold SimpleNet_init.
      rewrite bool_decide_eq_true_2 by exact Hname. cbn [_target_w _w].
      apply (set_weights_shapes_agree vars weights name HF). }
    split; [exact Hsw|]. intros i. rewrite Hsw. reflexivity.
  - intros Hname Hlen k v w Hv Hw Hne Hbefore.
    subst net. unfold SimpleNet_init.
    rewrite bool_decide_eq_true_2 by exact Hname. cbn [_target_w _w].
    apply (set_weights_first_wrong_shape vars weights name k v w Hlen Hv Hw Hne Hbefore).
  - intros Hlen Hname Hne. subst net. unfold SimpleNet_init.
    rewrite bool_decide_eq_false_2 by exact Hname.
    unfold set_weights. cbn [variables]. rewrite Hlen, Nat.eqb_refl. cbn [negb].
    destruct weights as [|w ws]; [destruct vars; [contradiction|discriminate]|].
    reflexivity.
Qed.

Lemma set_weights_assigns_on_target_witness :
  set_weights (SimpleNet_init (Some "target") [vec [0]; vec [0; 0]]) [vec [1]]
  = (SimpleNet_init (Some "target") [vec [0]; vec [0; 0]], Raise AssertionError) /\
  (forall i,
     variables (fst (set_weights (SimpleNet_init (Some "target") [vec [0]; vec [0; 0]])
                       [vec [1]; vec [2; 3]])) !! i
     = [vec [1]; vec [2; 3]] !! i) /\
  set_weights (SimpleNet_init (Some "target") [vec [0]; vec [0; 0]]) [vec [1]; vec [2]]
  = (mkNet (Some "target") (take 1 [vec [1]; vec [2]] ++ drop 1 [vec [0]; vec [0; 0]])
       (_target_w (SimpleNet_init (Some "target") [vec [0]; vec [0; 0]]))
       (_w (SimpleNet_init (Some "target") [vec [0]; vec [0; 0]])),
     Raise ValueError) /\
  set_weights (SimpleNet_init None [vec [0]; vec [0; 0]]) [vec [1]; vec [2; 3]]
  = (SimpleNet_init None [vec [0]; vec [0; 0]], Raise (AttributeError "_w")).
Proof.
  split; [|split; [|split]].
  - apply (proj1 (set_weights_assigns_on_target (Some "target")
                    [vec [0]; vec [0; 0]] [vec [1]])).
    cbn. lia.
  - apply (proj1 (proj2 (set_weights_assigns_on_target (Some "target")
                           [vec [0]; vec [0; 0]] [vec [1]; vec [2; 3]])));
      [reflexivity|].
    repeat constructor.
  - apply (proj1 (proj2 (proj2 (set_weights_assigns_on_target (Some "target")
                                  [vec [0]; vec [0; 0]] [vec [1]; vec [2]])))
             eq_refl eq_refl 1%nat (vec [0; 0]) (vec [2]) eq_refl eq_refl).
    + cbn. intros H. discriminate H.
    + intros i v' w' Hi Hv' Hw'. destruct i as [|i]; [|lia].
      cbn in Hv', Hw'. injection Hv' as <-. injection Hw' as <-. reflexivity.
  - apply (proj2 (proj2 (proj2 (set_weights_assigns_on_target None
                                  [vec [0]; vec [0; 0]] [vec [1]; vec [2; 3]]))));
      [reflexivity | discriminate | discriminate].
Defined.

(** C10, as stated, fails twice.  The training network has no assign
    operations: with a weights list of the right length the call raises on
    the missing attribute and the variable keeps its value.  And on a target
    network matching lengths are not enough: a value of another shape is
    refused, and the variable it was meant for keeps its value. *)
Lemma set_weights_on_train_network :
  (length (variables (SimpleNet_init (Some "train") [vec [1]])) = length [vec [2]] /\
   set_weights (SimpleNet_init (Some "train") [vec [1]]) [vec [2]]
   = (SimpleNet_init (Some "train") [vec [1]], Raise (AttributeError "_w")) /\
   variables (fst (set_weights (SimpleNet_init (Some "train") [vec [1]]) [vec [2]]))
     !! 0%nat
   <> [vec [2]] !! 0%nat) /\
  (length (variables (SimpleNet_init (Some "target") [vec [1]])) = length [vec [2; 3]] /\
   snd (set_weights (SimpleNet_init (Some "target") [vec [1]]) [vec [2; 3]])
   = Raise ValueError /\
   variables (fst (set_weights (SimpleNet_init (Some "target") [vec [1]]) [vec [2; 3]]))
     !! 0%nat
   <> [vec [2; 3]] !! 0%nat).
Proof.
  split.
  - split; [reflexivity|]. split; [reflexivity|].
    cbn. intros H. injection H as H. lra.
  - split; [reflexivity|]. split; [reflexivity|].
    cbn. intros H. discriminate H.
Qed.

(** * Properties of the ensemble update *)

Example mean_update_two_members :
  exists st',
    update (mkConfig Deterministic Mean 0.5 0)
      (mkParticles [[[1; 2]; [3; 4]]; [[5; 6]; [7; 8]]] (Parameter_new 0.5))
      (mkTransition 0 0 1 1 false) (fun _ => true)
    = Return st' /\
    Qs st' = [[[2.5; 2]; [3; 4]]; [[4.5; 6]; [7; 8]]].
Proof.
  eexists. split; [reflexivity|]. cbn.
  rewrite (Rmax_right 3 4), (Rmax_right 7 8) by lra.
  replace (np_mean [4; 8]) with 6 by (unfold np_mean, np_sum; cbn; lra).
  replace (1 + 0.5 * (1 + 0.5 * 6 - 1)) with 2.5 by lra.
  replace (5 + 0.5 * (1 + 0.5 * 6 - 5)) with 4.5 by lra.
  reflexivity.
Qed.

Example distributional_update_two_members :
  exists st',
    update (mkConfig Deterministic Distributional 0.5 0)
      (mkParticles [[[1; 2]; [3; 4]]; [[5; 6]; [7; 8]]] (Parameter_new 0.5))
      (mkTransition 0 0 1 1 false) (fun _ => true)
    = Return st' /\
    Qs st' = [[[2; 2]; [3; 4]]; [[5; 6]; [7; 8]]].
Proof.
  eexists. split; [reflexivity|]. cbn.
  rewrite (Rmax_right 3 4), (Rmax_right 7 8) by lra.
  replace (1 + 0.5 * (1 + 0.5 * 4 - 1)) with 2 by lra.
  replace (5 + 0.5 * (1 + 0.5 * 8 - 5)) with 5 by lra.
  reflexivity.
Qed.

Example update_out_of_range :
  update (mkConfig Deterministic Mean 0.5 0)
    (mkParticles [[[1; 2]; [3; 4]]; [[5; 6]; [7; 8]]] (Parameter_new 0.5))
    (mkTransition 2 0 1 1 true) (fun _ => true)
  = Raise IndexError.
Proof. reflexivity. Qed.

Lemma py_sequence_imap_Return {A B : Type} (f : nat -> A -> Py B)
    (g : nat -> A -> B) (l : list A) :
  (forall i x, l !! i = Some x -> f i x = Return (g i x)) ->
  py_sequence (imap f l) = Return (imap g l).
Proof.
  revert f g. induction l as [|x l IH]; intros f g H; cbn [imap py_sequence].
  - reflexivity.
  - rewrite (H 0%nat x eq_refl). cbn [mbind Py_bind py_bind].
    rewrite (IH (f ∘ S) (g ∘ S)).
    + reflexivity.
    + intros i y Hi. apply (H (S i) y). exact Hi.
Qed.

Lemma py_sequence_map_Return {A B : Type} (f : A -> Py B) (g : A -> B)
    (l : list A) :
  (forall x, x ∈ l -> f x = Return (g x)) ->
  py_sequence (map f l) = Return (map g l).
Proof.
  induction l as [|x l IH]; intros H; cbn [map py_sequence].
  - reflexivity.
  - rewrite (H x) by apply list_elem_of_here. cbn [mbind Py_bind py_bind].
    rewrite IH.
    + reflexivity.
    + intros y Hy. apply H. apply list_elem_of_further. exact Hy.
Qed.

Lemma table_get_set_same (q : Table) (s a : nat) (old v : R) :
  table_get q s a = Some old -> table_get (table_set q s a v) s a = Some v.
Proof.
  unfold table_get, table_set. destruct (q !! s) as [row|] eqn:Hrow; [|discriminate].
  intros Hold.
  rewrite list_lookup_insert_eq by (eapply lookup_lt_Some; exact Hrow).
  apply list_lookup_insert_eq. eapply lookup_lt_Some. exact Hold.
Qed.

Lemma table_get_set_other (q : Table) (s a s' a' : nat) (v : R) :
  (s', a') <> (s, a) ->
  table_get (table_set q s a v) s' a' = table_get q s' a'.
Proof.
  intros Hne. unfold table_get, table_set.
  destruct (q !! s) as [row|] eqn:Hrow; [|reflexivity].
  destruct (decide (s' = s)) as [->|Hs].
  - rewrite list_lookup_insert_eq by (eapply lookup_lt_Some; exact Hrow).
    rewrite Hrow. apply list_lookup_insert_ne. congruence.
  - rewrite list_lookup_insert_ne by congruence. reflexivity.
Qed.

Lemma in_bounds_lookup (E : Ensemble) (s a : nat) (i : nat) (q : Table) :
  in_bounds E s a = true -> E !! i = Some q ->
  exists old, table_get q s a = Some old.
Proof.
  unfold in_bounds. rewrite forallb_forall. intros H Hi.
  assert (In q E) as Hin.
  { apply list_elem_of_In. eapply list_elem_of_lookup_2. exact Hi. }
  specialize (H q Hin). apply bool_decide_eq_true_1 in H.
  destruct H as [old Hold]. exists old. exact Hold.
Qed.

(** On a terminal transition the target of every member is the reward. *)
Lemma target_terminal (cfg : Config) (E : Ensemble) (tr : Transition) (q : Table) :
  t_terminal tr = true -> target cfg E tr q = Return (t_reward tr).
Proof. intros H. unfold target. rewrite H. reflexivity. Qed.

Lemma update_member_terminal (cfg : Config) (E : Ensemble) (tr : Transition)
    (lr : R) (mask : nat -> bool) (i : nat) (q : Table) (old : R) :
  t_terminal tr = true ->
  table_get q (t_state tr) (t_action tr) = Some old ->
  update_member cfg E tr lr mask i q = Return (terminal_member cfg tr lr mask i q).
Proof.
  intros Ht Hold. unfold update_member, terminal_member.
  destruct (selected (c_update_mode cfg) mask i); [|reflexivity].
  rewrite Hold. cbn [mbind Py_bind py_bind].
  rewrite (target_terminal cfg E tr q Ht). reflexivity.
Qed.

Lemma update_terminal_result (cfg : Config) (st : Particles) (tr : Transition)
    (mask : nat -> bool) :
  t_terminal tr = true ->
  in_bounds (Qs st) (t_state tr) (t_action tr) = true ->
  idx_in_range (param_idx (alpha st) [t_state tr; t_action tr])
    (p_size (alpha st)) = true ->
  let i := param_idx (alpha st) [t_state tr; t_action tr] in
  let alpha' := param_update (alpha st) i in
  let lr := param_compute alpha' i in
  update cfg st tr mask
  = Return (mkParticles (imap (terminal_member cfg tr lr mask) (Qs st)) alpha').
Proof.
  intros Ht Hb Hr i alpha' lr. unfold update. rewrite Hb. cbn [negb].
  rewrite (param_call_in_range _ _ Hr). cbn [mbind Py_bind py_bind].
  fold i. fold alpha'. fold lr.
  rewrite (py_sequence_imap_Return _ (terminal_member cfg tr lr mask)).
  - reflexivity.
  - intros j q Hj. destruct (in_bounds_lookup _ _ _ _ _ Hb Hj) as [old Hold].
    eapply update_member_terminal; eassumption.
Qed.

(** C1: on a terminal transition the update succeeds, and the entry
    (state, action) of every updated member becomes
    [Q + lr * (reward - Q)], where [Q] is its previous value and [lr] the
    learning rate returned for this visit; the result is the same whatever
    the next state is. *)
Theorem terminal_update_uses_reward_only
    (cfg : Config) (st : Particles) (tr : Transition) (mask : nat -> bool) :
  t_terminal tr = true ->
  in_bounds (Qs st) (t_state tr) (t_action tr) = true ->
  idx_in_range (param_idx (alpha st) [t_state tr; t_action tr])
    (p_size (alpha st)) = true ->
  exists alpha' lr E',
    param_call (alpha st) [t_state tr; t_action tr] = Return (alpha', lr) /\
    update cfg st tr mask = Return (mkParticles E' alpha') /\
    length E' = length (Qs st) /\
    (forall i q, Qs st !! i = Some q ->
       selected (c_update_mode cfg) mask i = true ->
       exists old q',
         table_get q (t_state tr) (t_action tr) = Some old /\
         E' !! i = Some q' /\
         table_get q' (t_state tr) (t_action tr)
         = Some (old + lr * (t_reward tr - old))) /\
    (forall s', update cfg st (with_next_state tr s') mask
                = update cfg st tr mask).
Proof.
  intros Ht Hb Hr.
  set (i := param_idx (alpha st) [t_state tr; t_action tr]).
  set (alpha' := param_update (alpha st) i).
  set (lr := param_compute alpha' i).
  exists alpha', lr, (imap (terminal_member cfg tr lr mask) (Qs st)).
  split; [apply param_call_in_range; exact Hr|].
  split; [apply update_terminal_result; assumption|].
  split; [apply length_imap|].
  split.
  - intros j q Hj Hsel.
    destruct (in_bounds_lookup _ _ _ _ _ Hb Hj) as [old Hold].
    exists old, (terminal_member cfg tr lr mask j q).
    split; [exact Hold|]. split.
    + rewrite list_lookup_imap, Hj. reflexivity.
    + unfold terminal_member. rewrite Hsel, Hold.
      eapply table_get_set_same. exact Hold.
  - intros s'.
    rewrite (update_terminal_result cfg st (with_next_state tr s') mask Ht Hb Hr).
    rewrite (update_terminal_result cfg st tr mask Ht Hb Hr).
    reflexivity.
Qed.

Lemma terminal_update_uses_reward_only_witness :
  exists alpha' lr E',
    param_call (ExponentialDecayParameter_new 1 0.3 [2; 2]%nat) [1; 0]%nat
    = Return (alpha', lr) /\
    update (mkConfig Randomized Weighted 0.9 0.5)
      (mkParticles [[[1; 2]; [3; 4]]; [[5; 6]; [7; 8]]]
         (ExponentialDecayParameter_new 1 0.3 [2; 2]%nat))
      (mkTransition 1 0 10 7 true) (fun i => Nat.even i)
    = Return (mkParticles E' alpha') /\
    length E' = 2%nat /\
    (forall i q, [[[1; 2]; [3; 4]]; [[5; 6]; [7; 8]]] !! i = Some q ->
       selected Randomized (fun i => Nat.even i) i = true ->
       exists old q',
         table_get q 1 0 = Some old /\
         E' !! i = Some q' /\
         table_get q' 1 0 = Some (old + lr * (10 - old))) /\
    (forall s',
       update (mkConfig Randomized Weighted 0.9 0.5)
         (mkParticles [[[1; 2]; [3; 4]]; [[5; 6]; [7; 8]]]
            (ExponentialDecayParameter_new 1 0.3 [2; 2]%nat))
         (with_next_state (mkTransition 1 0 10 7 true) s') (fun i => Nat.even i)
       = update (mkConfig Randomized Weighted 0.9 0.5)
           (mkParticles [[[1; 2]; [3; 4]]; [[5; 6]; [7; 8]]]
              (ExponentialDecayParameter_new 1 0.3 [2; 2]%nat))
           (mkTransition 1 0 10 7 true) (fun i => Nat.even i)).
Proof.
  apply (terminal_update_uses_reward_only
           (mkConfig Randomized Weighted 0.9 0.5)
           (mkParticles [[[1; 2]; [3; 4]]; [[5; 6]; [7; 8]]]
              (ExponentialDecayParameter_new 1 0.3 [2; 2]%nat))
           (mkTransition 1 0 10 7 true) (fun i => Nat.even i));
    reflexivity.
Defined.

(** C3: three members over two states and two actions, all entries 0; one
    terminal transition (0, 0, 1, 1) with the constant learning rate 0.5,
    every member updated: entry (0, 0) of every member becomes 0.5 and
    every other entry is still 0. *)
Theorem end_to_end_terminal_scenario
    (ut : update_type) (gamma mix : R) (mask : nat -> bool) :
  exists st',
    update (mkConfig Deterministic ut gamma mix)
      (mkParticles (constant_ensemble 3 (2, 2)%nat 0) (Parameter_new 0.5))
      (mkTransition 0 0 1 1 true) mask
    = Return st' /\
    Qs st' = replicate 3 [[0.5; 0]; [0; 0]] /\
    (forall i s a, (i < 3)%nat -> (s < 2)%nat -> (a < 2)%nat ->
       exists q, Qs st' !! i = Some q /\
                 table_get q s a
                 = Some (if bool_decide ((s, a) = (0, 0)%nat) then 0.5 else 0)).
Proof.
  assert (0 + 0.5 * (1 - 0) = 0.5) as Hv by lra.
  eexists. split; [reflexivity|]. cbn [Qs]. split.
  - cbn. rewrite Hv. reflexivity.
  - intros i s a Hi Hs Ha. cbn. rewrite Hv.
    destruct i as [|[|[|i]]]; [| | |lia];
      (eexists; split; [reflexivity|]);
      destruct s as [|[|s]]; try lia;
      destruct a as [|[|a]]; try lia; reflexivity.
Qed.

Lemma all_equal_replicate (n : nat) (q : Table) : all_equal (replicate n q).
Proof.
  intros x y Hx Hy. apply elem_of_replicate_inv in Hx, Hy. congruence.
Qed.

Lemma all_equal_as_replicate (E : Ensemble) (q : Table) :
  all_equal E -> q ∈ E -> E = replicate (length E) q.
Proof.
  intros Hall Hq.
  assert (forall x, x ∈ E -> x = q) as H by (intros x Hx; apply Hall; assumption).
  clear Hall Hq. induction E as [|x E IH]; [reflexivity|].
  cbn [length replicate]. rewrite (H x) by apply list_elem_of_here.
  f_equal. apply IH. intros y Hy. apply H. apply list_elem_of_further. exact Hy.
Qed.

Lemma py_sequence_replicate {A : Type} (n : nat) (m : Py A) (l : list A) :
  py_sequence (replicate n m) = Return l ->
  length l = n /\ forall y, y ∈ l -> m = Return y.
Proof.
  revert l. induction n as [|n IH]; intros l; cbn [replicate py_sequence].
  - intros H. injection H as <-. split; [reflexivity|].
    intros y Hy. inversion Hy.
  - destruct m as [e|x] eqn:Hm; cbn [mbind Py_bind py_bind]; [discriminate|].
    destruct (py_sequence (replicate n (Return x))) as [e|xs] eqn:Hs;
      cbn [mbind Py_bind py_bind]; [discriminate|].
    intros H. injection H as <-.
    destruct (IH xs eq_refl) as [Hlen Hxs].
    split; [cbn; congruence|].
    intros y Hy. apply elem_of_cons in Hy as [->|Hy]; [reflexivity|].
    apply Hxs. exact Hy.
Qed.

Lemma update_member_deterministic (cfg : Config) (E : Ensemble)
    (tr : Transition) (lr : R) (mask : nat -> bool) (i : nat) (q : Table) :
  c_update_mode cfg = Deterministic ->
  update_member cfg E tr lr mask i q = update_member cfg E tr lr mask 0 q.
Proof. intros H. unfold update_member. rewrite H. reflexivity. Qed.

(** In deterministic mode an ensemble of identical members stays one. *)
Lemma update_keeps_all_equal (cfg : Config) (st st' : Particles)
    (tr : Transition) (mask : nat -> bool) :
  c_update_mode cfg = Deterministic ->
  all_equal (Qs st) ->
  update cfg st tr mask = Return st' ->
  all_equal (Qs st') /\ length (Qs st') = length (Qs st).
Proof.
  intros Hmode Hall. unfold update.
  destruct (in_bounds (Qs st) (t_state tr) (t_action tr)); cbn [negb];
    [|discriminate].
  destruct (param_call (alpha st) [t_state tr; t_action tr]) as [e|[alpha' lr]];
    cbn [mbind Py_bind py_bind]; [discriminate|].
  destruct (py_sequence (imap (update_member cfg (Qs st) tr lr mask) (Qs st)))
    as [e|E'] eqn:HE; cbn [mbind Py_bind py_bind]; [discriminate|].
  intros H. injection H as <-. cbn [Qs].
  destruct (Qs st) as [|q E] eqn:HQ.
  - cbn in HE. injection HE as <-. split; [|reflexivity].
    intros x y Hx. inversion Hx.
  - rewrite <- HQ in HE, Hall.
    rewrite (imap_ext _ (const (update_member cfg (Qs st) tr lr mask 0)) (Qs st))
      in HE by (intros; apply update_member_deterministic; exact Hmode).
    rewrite imap_const in HE.
    rewrite (all_equal_as_replicate (Qs st) q Hall) in HE at 2
      by (rewrite HQ; apply list_elem_of_here).
    rewrite fmap_replicate in HE.
    apply py_sequence_replicate in HE as [Hlen Heq].
    split.
    + intros x y Hx Hy. apply Heq in Hx, Hy. congruence.
    + rewrite Hlen, HQ. reflexivity.
Qed.

Lemma updates_keep_all_equal (cfg : Config)
    (trs : list (Transition * (nat -> bool))) (st st' : Particles) :
  c_update_mode cfg = Deterministic ->
  all_equal (Qs st) ->
  updates cfg st trs = Return st' ->
  all_equal (Qs st') /\ length (Qs st') = length (Qs st).
Proof.
  intros Hmode. revert st. induction trs as [|[tr mask] trs IH]; intros st Hall.
  - cbn. intros H. injection H as <-. auto.
  - cbn [updates].
    destruct (update cfg st tr mask) as [e|st1] eqn:Hu;
      cbn [mbind Py_bind py_bind]; [discriminate|].
    intros H.
    destruct (update_keeps_all_equal cfg st st1 tr mask Hmode Hall Hu) as [H1 L1].
    destruct (IH st1 H1 H) as [H2 L2]. split; [exact H2|congruence].
Qed.

Lemma py_sequence_imap_ex {A B : Type} (P : B -> Prop) (f : nat -> A -> Py B)
    (l : list A) :
  (forall i x, l !! i = Some x -> exists y, f i x = Return y /\ P y) ->
  exists l', py_sequence (imap f l) = Return l' /\ Forall P l'.
Proof.
  revert f. induction l as [|x l IH]; intros f H; cbn [imap py_sequence].
  - exists []. split; [reflexivity|constructor].
  - destruct (H 0%nat x eq_refl) as (y & Hy & Py). rewrite Hy.
    destruct (IH (f ∘ S)) as (l' & Hl' & Pl').
    { intros i z Hi. apply (H (S i) z). exact Hi. }
    rewrite Hl'. exists (y :: l'). split; [reflexivity|].
    constructor; assumption.
Qed.

Lemma table_has_shape_get (shape : nat * nat) (q : Table) (s a : nat) :
  table_has_shape shape q -> (s < fst shape)%nat -> (a < snd shape)%nat ->
  exists row old, q !! s = Some row /\ row !! a = Some old /\ row <> [].
Proof.
  intros [Hlen Hrows] Hs Ha.
  destruct (lookup_lt_is_Some_2 q s) as [row Hrow]; [lia|].
  assert (length row = snd shape) as Hr.
  { rewrite Forall_forall in Hrows. apply Hrows.
    eapply list_elem_of_lookup_2. exact Hrow. }
  destruct (lookup_lt_is_Some_2 row a) as [old Hold]; [lia|].
  exists row, old. split; [exact Hrow|]. split; [exact Hold|].
  intros ->. cbn in Hr. lia.
Qed.

Lemma table_set_has_shape (shape : nat * nat) (q : Table) (s a : nat) (v : R) :
  table_has_shape shape q -> table_has_shape shape (table_set q s a v).
Proof.
  intros [Hlen Hrows]. unfold table_set.
  destruct (q !! s) as [row|] eqn:Hrow; [|split; assumption].
  split.
  - rewrite length_insert. exact Hlen.
  - apply Forall_insert; [exact Hrows|].
    rewrite length_insert. rewrite Forall_forall in Hrows. apply Hrows.
    eapply list_elem_of_lookup_2. exact Hrow.
Qed.

Lemma in_bounds_shaped (shape : nat * nat) (E : Ensemble) (s a : nat) :
  Forall (table_has_shape shape) E -> (s < fst shape)%nat -> (a < snd shape)%nat ->
  in_bounds E s a = true.
Proof.
  intros HE Hs Ha. unfold in_bounds. apply forallb_forall. intros q Hq.
  apply bool_decide_eq_true_2.
  rewrite Forall_forall in HE.
  destruct (table_has_shape_get shape q s a) as (row & old & Hrow & Hold & _);
    [apply HE; apply list_elem_of_In; exact Hq | exact Hs | exact Ha |].
  unfold table_get. rewrite Hrow, Hold. eexists. reflexivity.
Qed.

Lemma learning_rate_in_range (p : Param) (shape : nat * nat) (s a : nat) :
  p_size p = [fst shape; snd shape] -> (s < fst shape)%nat -> (a < snd shape)%nat ->
  idx_in_range (param_idx p [s; a]) (p_size p) = true.
Proof.
  intros Hsz Hs Ha. unfold param_idx. rewrite Hsz. cbn [foldr length replicate].
  destruct (bool_decide (fst shape * (snd shape * 1) = 1)%nat); cbn [idx_in_range].
  - rewrite !andb_true_iff, !Nat.ltb_lt. repeat split; lia.
  - rewrite !andb_true_iff, !Nat.ltb_lt. repeat split; lia.
Qed.

Lemma max_next_shaped (shape : nat * nat) (q : Table) (s' : nat) :
  table_has_shape shape q -> (s' < fst shape)%nat -> (0 < snd shape)%nat ->
  exists m, max_next q s' = Return m.
Proof.
  intros Hq Hs Ha.
  destruct (table_has_shape_get shape q s' 0 Hq Hs Ha) as (row & old & Hrow & _ & Hne).
  unfold max_next, getitem. rewrite Hrow. cbn [mbind Py_bind py_bind].
  unfold row_max. destruct row; [contradiction|]. eexists. reflexivity.
Qed.

Lemma bootstrap_mean_shaped (cfg : Config) (shape : nat * nat) (E : Ensemble)
    (s' : nat) (q : Table) :
  c_update_type cfg = Mean ->
  Forall (table_has_shape shape) E -> (s' < fst shape)%nat -> (0 < snd shape)%nat ->
  exists b, bootstrap cfg E s' q = Return b.
Proof.
  intros Hty HE Hs Ha. unfold bootstrap. rewrite Hty.
  assert (exists ms, py_sequence (map (fun q' => max_next q' s') E) = Return ms)
    as [ms Hms].
  { clear q. induction HE as [|q' E' Hq' HE' IH]; cbn [map py_sequence].
    - eexists. reflexivity.
    - destruct (max_next_shaped shape q' s' Hq' Hs Ha) as [m Hm]. rewrite Hm.
      destruct IH as [ms Hms]. rewrite Hms. eexists. reflexivity. }
  rewrite Hms. eexists. reflexivity.
Qed.

(** A mean/deterministic update on a well-shaped ensemble with an in-range
    transition returns, and leaves the ensemble well shaped. *)
Lemma update_mean_succeeds (cfg : Config) (shape : nat * nat) (st : Particles)
    (tr : Transition) (mask : nat -> bool) :
  c_update_type cfg = Mean ->
  Forall (table_has_shape shape) (Qs st) ->
  p_size (alpha st) = [fst shape; snd shape] ->
  transition_in_range shape tr ->
  exists st', update cfg st tr mask = Return st' /\
              Forall (table_has_shape shape) (Qs st') /\
              p_size (alpha st') = [fst shape; snd shape].
Proof.
  intros Hty HE Hsz (Hs & Ha & Hs'). unfold update.
  rewrite (in_bounds_shaped shape _ _ _ HE Hs Ha). cbn [negb].
  rewrite (param_call_in_range _ _ (learning_rate_in_range _ shape _ _ Hsz Hs Ha)).
  cbn [mbind Py_bind py_bind].
  set (i := param_idx (alpha st) [t_state tr; t_action tr]).
  set (lr := param_compute (param_update (alpha st) i) i).
  destruct (py_sequence_imap_ex (table_has_shape shape)
              (update_member cfg (Qs st) tr lr mask) (Qs st)) as (E' & HE' & HP).
  { intros j q Hj.
    assert (table_has_shape shape q) as Hq.
    { rewrite Forall_forall in HE. apply HE. eapply list_elem_of_lookup_2. exact Hj. }
    destruct (table_has_shape_get shape q _ _ Hq Hs Ha) as (row & old & Hrow & Hold & _).
    unfold update_member.
    destruct (selected (c_update_mode cfg) mask j); [|eexists; split; [reflexivity|exact Hq]].
    unfold table_get. rewrite Hrow, Hold. cbn [mbind Py_bind py_bind].
    assert (exists tgt, target cfg (Qs st) tr q = Return tgt) as [tgt Htgt].
    { unfold target. destruct (t_terminal tr); [eexists; reflexivity|].
      destruct (bootstrap_mean_shaped cfg shape (Qs st) (t_next_state tr) q Hty HE Hs')
        as [b Hb]; [lia|].
      rewrite Hb. eexists. reflexivity. }
    rewrite Htgt. cbn [mbind Py_bind py_bind]. eexists. split; [reflexivity|].
    apply table_set_has_shape. exact Hq. }
  rewrite HE'. cbn [mbind Py_bind py_bind]. eexists. split; [reflexivity|].
  cbn [Qs alpha p_size param_update]. split; assumption.
Qed.

Lemma updates_mean_succeed (cfg : Config) (shape : nat * nat)
    (trs : list (Transition * (nat -> bool))) (st : Particles) :
  c_update_type cfg = Mean ->
  Forall (table_has_shape shape) (Qs st) ->
  p_size (alpha st) = [fst shape; snd shape] ->
  Forall (fun x => transition_in_range shape (fst x)) trs ->
  exists st', updates cfg st trs = Return st'.
Proof.
  intros Hty. revert st. induction trs as [|[tr mask] trs IH]; intros st HE Hsz HF.
  - eexists. reflexivity.
  - inversion HF as [|? ? Htr HF']; subst. cbn [fst] in Htr. cbn [updates].
    destruct (update_mean_succeeds cfg shape st tr mask Hty HE Hsz Htr)
      as (st1 & Hu & HE1 & Hsz1).
    rewrite Hu. cbn [mbind Py_bind py_bind]. apply IH; assumption.
Qed.

Lemma Table_new_has_shape (shape : nat * nat) (c : R) :
  table_has_shape shape (Table_new shape c).
Proof.
  unfold table_has_shape, Table_new. split.
  - apply length_replicate.
  - apply Forall_replicate. apply length_replicate.
Qed.

(** C2: an ensemble of [n] members all initialised to the constant [c],
    updated with [update_type = mean] and [update_mode = deterministic]:
    after any sequence of transitions every member is equal, entry for
    entry, to every other; and any sequence of in-range transitions is
    processed without error. *)
Theorem mean_deterministic_members_stay_identical
    (n : nat) (shape : nat * nat) (c gamma mix : R) (lr : Param)
    (trs : list (Transition * (nat -> bool))) :
  let cfg := mkConfig Deterministic Mean gamma mix in
  let st0 := mkParticles (constant_ensemble n shape c) lr in
  (forall st', updates cfg st0 trs = Return st' ->
     all_equal (Qs st') /\ length (Qs st') = n) /\
  (p_size lr = [fst shape; snd shape] ->
   Forall (fun x => transition_in_range shape (fst x)) trs ->
   exists st', updates cfg st0 trs = Return st' /\
               all_equal (Qs st') /\ length (Qs st') = n).
Proof.
  intros cfg st0.
  assert (forall st', updates cfg st0 trs = Return st' ->
            all_equal (Qs st') /\ length (Qs st') = n) as Hinv.
  { intros st' Hu.
    destruct (updates_keep_all_equal cfg trs st0 st' eq_refl) as [H1 H2];
      [apply all_equal_replicate | exact Hu |].
    split; [exact H1|]. rewrite H2. apply length_replicate. }
  split; [exact Hinv|].
  intros Hsz HF.
  destruct (updates_mean_succeed cfg shape trs st0 eq_refl) as [st' Hu];
    [apply Forall_replicate; apply Table_new_has_shape | exact Hsz | exact HF |].
  exists st'. split; [exact Hu|]. apply Hinv. exact Hu.
Qed.

Lemma mean_deterministic_members_stay_identical_witness :
  exists st',
    updates (mkConfig Deterministic Mean 0.9 0.5)
      (mkParticles (constant_ensemble 3 (2, 2)%nat 5)
         (ExponentialDecayParameter_new 1 0.3 [2; 2]%nat))
      [(mkTransition 0 1 1 1 false, fun _ => true);
       (mkTransition 1 0 2 0 true, fun _ => false)]
    = Return st' /\ all_equal (Qs st') /\ length (Qs st') = 3%nat.
Proof.
  apply (proj2 (mean_deterministic_members_stay_identical 3 (2, 2)%nat 5 0.9 0.5
                  (ExponentialDecayParameter_new 1 0.3 [2; 2]%nat)
                  [(mkTransition 0 1 1 1 false, fun _ => true);
                   (mkTransition 1 0 2 0 true, fun _ => false)])).
  - reflexivity.
  - repeat (constructor; [unfold transition_in_range; cbn; lia|]). constructor.
Defined.

(** * Properties of the VPI policy *)

Example vpi_bonus_with_spread :
  vpi_bonus (fun gap sd => 1) [(1, 2); (3, 0)] 0 = 2 /\
  vpi_bonus (fun gap sd => 1) [(1, 2); (3, 0)] 1 = 0 /\
  vpi_scores (fun gap sd => 1) [(1, 2); (3, 0)] = [1 + 2 * 1; 3 + 0 * 1].
Proof. unfold vpi_scores, vpi_bonus. cbn. repeat split; lra. Qed.

Lemma np_sum_replicate (n : nat) (c : R) : np_sum (replicate n c) = INR n * c.
Proof.
  induction n as [|n IH].
  - cbn. lra.
  - cbn [replicate]. unfold np_sum in *. cbn [foldr]. rewrite IH, S_INR. lra.
Qed.

Lemma np_mean_replicate (n : nat) (c : R) :
  n <> 0%nat -> np_mean (replicate n c) = c.
Proof.
  intros Hn. unfold np_mean. rewrite np_sum_replicate, length_replicate.
  field. apply not_0_INR. exact Hn.
Qed.

Lemma np_mean_zeros (n : nat) : np_mean (replicate n 0) = 0.
Proof.
  unfold np_mean. rewrite np_sum_replicate. unfold Rdiv.
  rewrite Rmult_0_r, Rmult_0_l. reflexivity.
Qed.

(** Members that agree have zero spread. *)
Lemma np_std_replicate (n : nat) (c : R) : np_std (replicate n c) = 0.
Proof.
  unfold np_std. cbn zeta. rewrite fmap_replicate.
  destruct n as [|n].
  - cbn [replicate]. unfold np_mean, np_sum, Rdiv. cbn [foldr].
    rewrite Rmult_0_l. apply sqrt_0.
  - rewrite (np_mean_replicate (S n) c) by discriminate.
    replace ((c - c) * (c - c)) with 0 by lra.
    rewrite np_mean_zeros. apply sqrt_0.
Qed.

Lemma py_sequence_replicate_Return {A : Type} (n : nat) (x : A) :
  py_sequence (replicate n (Return x)) = Return (replicate n x).
Proof.
  induction n as [|n IH]; cbn [replicate py_sequence]; [reflexivity|].
  cbn [mbind Py_bind py_bind]. rewrite IH. reflexivity.
Qed.

Lemma column_replicate (n : nat) (row : list R) (a : nat) (x : R) :
  row !! a = Some x -> column (replicate n row) a = Return (replicate n x).
Proof.
  intros Hx. unfold column. change map with (@fmap list _). rewrite fmap_replicate.
  unfold getitem. rewrite Hx. apply py_sequence_replicate_Return.
Qed.

Lemma action_stats_replicate (n : nat) (row : list R) (a : nat) (x : R) :
  n <> 0%nat -> row !! a = Some x ->
  action_stats (replicate n row) a = Return (x, 0).
Proof.
  intros Hn Hx. unfold action_stats. rewrite (column_replicate n row a x Hx).
  cbn [mbind Py_bind py_bind].
  rewrite np_mean_replicate by exact Hn. rewrite np_std_replicate. reflexivity.
Qed.

Lemma map_const_replicate {A B : Type} (l : list A) (y : B) :
  map (fun _ => y) l = replicate (length l) y.
Proof. induction l as [|x l IH]; cbn; [reflexivity|]. rewrite IH. reflexivity. Qed.

Lemma map_seq_lookup {B : Type} (row : list R) (h : R -> B) (d : B) :
  map (fun a => match row !! a with Some x => h x | None => d end)
    (seq 0 (length row))
  = map h row.
Proof.
  apply list_eq. intros i.
  change map with (@fmap list _). rewrite !list_lookup_fmap.
  destruct (row !! i) as [x|] eqn:Hi.
  - rewrite lookup_seq_lt by (eapply lookup_lt_Some; exact Hi).
    cbn. rewrite Hi. reflexivity.
  - rewrite lookup_seq_ge by (apply lookup_ge_None; exact Hi). reflexivity.
Qed.

(** With members that agree on [state], the statistics are the common row
    with zero standard deviation. *)
Lemma ensemble_stats_agree (E : Ensemble) (state : nat) (q : Table) (row : list R) :
  members_agree E state -> q ∈ E -> q !! state = Some row ->
  ensemble_stats E state = Return (map (fun x => (x, 0)) row).
Proof.
  intros Hag Hq Hrow. unfold ensemble_stats.
  rewrite (py_sequence_map_Return _ (fun _ => row)).
  2:{ intros q' Hq'. unfold getitem. rewrite (Hag q' q Hq' Hq), Hrow. reflexivity. }
  cbn [mbind Py_bind py_bind]. rewrite map_const_replicate.
  destruct E as [|q0 E']; [inversion Hq|]. cbn [length replicate].
  change (row :: replicate (length E') row) with (replicate (S (length E')) row).
  rewrite (py_sequence_map_Return _
             (fun a => match row !! a with Some x => (x, 0) | None => (0, 0) end)).
  - rewrite (map_seq_lookup row (fun x => (x, 0)) (0, 0)). reflexivity.
  - intros a Ha. apply elem_of_seq in Ha as [_ Ha]. cbn in Ha.
    destruct (lookup_lt_is_Some_2 row a Ha) as [x Hx]. rewrite Hx.
    apply action_stats_replicate; [discriminate|exact Hx].
Qed.

Lemma ensemble_stats_agree_inv (E : Ensemble) (state : nat) (stats : list (R * R)) :
  members_agree E state -> ensemble_stats E state = Return stats ->
  exists row, stats = map (fun x => (x, 0)) row.
Proof.
  intros Hag Hst. destruct E as [|q E'].
  - cbn in Hst. discriminate.
  - destruct (q !! state) as [row|] eqn:Hrow.
    + exists row.
      rewrite (ensemble_stats_agree (q :: E') state q row Hag
                 (list_elem_of_here _ _) Hrow) in Hst.
      injection Hst as <-. reflexivity.
    + unfold ensemble_stats in Hst. cbn [map py_sequence] in Hst.
      unfold getitem in Hst. rewrite Hrow in Hst. cbn in Hst. discriminate.
Qed.

Lemma vpi_bonus_zero_std (gain : R -> R -> R) (row : list R) (a : nat) :
  vpi_bonus gain (map (fun x => (x, 0)) row) a = 0.
Proof.
  unfold vpi_bonus. change map with (@fmap list _). rewrite list_lookup_fmap.
  destruct (row !! a) as [x|]; cbn; [apply Rmult_0_l | reflexivity].
Qed.

Lemma vpi_scores_zero_std (gain : R -> R -> R) (row : list R) :
  vpi_scores gain (map (fun x => (x, 0)) row) = row.
Proof.
  unfold vpi_scores.
  rewrite (imap_ext _ (const fst)).
  - rewrite imap_const. change map with (@fmap list _).
    rewrite <- list_fmap_compose. apply list_fmap_id.
  - intros a st _. rewrite vpi_bonus_zero_std. unfold const. apply Rplus_0_r.
Qed.

(** C4: when all members agree on the Q-values of a state, the VPI bonus of
    every action is zero, the scores are the ensemble means, and
    [select_action] is plain greedy over the ensemble mean, with the same
    tie-breaking draw. *)
Theorem vpi_reduces_to_greedy_on_agreement
    (gain : R -> R -> R) (E : Ensemble) (state u : nat) :
  members_agree E state ->
  (forall stats, ensemble_stats E state = Return stats ->
     (forall a, vpi_bonus gain stats a = 0) /\
     vpi_scores gain stats = map fst stats) /\
  vpi_select_action gain false E state u = greedy_mean_action E state u /\
  (forall q row, q ∈ E -> q !! state = Some row ->
     exists stats, ensemble_stats E state = Return stats /\
                   map fst stats = row /\ map snd stats = replicate (length row) 0).
Proof.
  intros Hag.
  assert (forall stats, ensemble_stats E state = Return stats ->
            (forall a, vpi_bonus gain stats a = 0) /\
            vpi_scores gain stats = map fst stats) as Hstats.
  { intros stats Hst.
    destruct (ensemble_stats_agree_inv E state stats Hag Hst) as [row ->].
    split; [intros a; apply vpi_bonus_zero_std|].
    rewrite vpi_scores_zero_std. change map with (@fmap list _).
    rewrite <- list_fmap_compose. symmetry. apply list_fmap_id. }
  split; [exact Hstats|]. split.
  - unfold vpi_select_action, greedy_mean_action.
    destruct (ensemble_stats E state) as [e|stats] eqn:Hst;
      cbn [mbind Py_bind py_bind]; [reflexivity|].
    destruct (Hstats stats eq_refl) as [_ ->]. reflexivity.
  - intros q row Hq Hrow. eexists.
    split; [apply (ensemble_stats_agree E state q row Hag Hq Hrow)|].
    change map with (@fmap list _). rewrite <- !list_fmap_compose.
    split; [apply list_fmap_id|].
    change (@fmap list _) with map. apply map_const_replicate.
Qed.

Lemma vpi_reduces_to_greedy_on_agreement_witness :
  vpi_select_action (fun g sd => 1 + g * sd) false
    [[[1; 2]; [0; 0]]; [[1; 2]; [3; 4]]] 0 7
  = greedy_mean_action [[[1; 2]; [0; 0]]; [[1; 2]; [3; 4]]] 0 7.
Proof.
  apply (proj1 (proj2 (vpi_reduces_to_greedy_on_agreement (fun g sd => 1 + g * sd)
                         [[[1; 2]; [0; 0]]; [[1; 2]; [3; 4]]] 0 7
                         ltac:(intros q q' Hq Hq';
                               repeat (apply elem_of_cons in Hq as [->|Hq]);
                               repeat (apply elem_of_cons in Hq' as [->|Hq']);
                               try reflexivity;
                               solve [inversion Hq | inversion Hq'])))).
Defined.

(** * Further properties of [compute_scores] *)

Example split_episodes_three :
  split_episodes [] [sample_of 1 false; sample_of 2 true; sample_of 3 true;
                     sample_of 4 false]
  = ([[sample_of 1 false; sample_of 2 true]; [sample_of 3 true]],
     [sample_of 4 false]).
Proof. reflexivity. Qed.

Lemma np_sum_app (l1 l2 : list R) : np_sum (l1 ++ l2)%list = np_sum l1 + np_sum l2.
Proof.
  unfold np_sum. induction l1 as [|x l1 IH]; cbn [app foldr]; [lra|].
  rewrite IH. lra.
Qed.

Lemma reward_sum_snoc (cur : list Sample) (d : Sample) :
  reward_sum (cur ++ [d])%list = reward_sum cur + d_reward d.
Proof.
  unfold reward_sum. rewrite map_app, np_sum_app. unfold np_sum. cbn. lra.
Qed.

Lemma disc_sum_snoc (gamma : R) (cur : list Sample) (d : Sample) (t : nat) :
  disc_sum gamma t (cur ++ [d])%list
  = disc_sum gamma t cur + d_reward d * gamma ^ (t + length cur).
Proof.
  revert t. induction cur as [|x cur IH]; intros t; cbn [app disc_sum length].
  - rewrite Nat.add_0_r. lra.
  - rewrite IH. replace (S t + length cur)%nat with (t + S (length cur))%nat by lia.
    lra.
Qed.

(** The loop started in the middle of an episode: [cur] are the samples of
    the episode in progress, [base] the discounted total carried over from
    the episodes before. *)
Lemma score_loop_episodes (gamma : R) (dataset cur : list Sample)
    (acc : score_acc) (base : R) :
  score acc = reward_sum cur ->
  episode_steps acc = length cur ->
  disc_score acc = base + disc_return gamma cur ->
  let acc' := foldl (score_step gamma) acc dataset in
  let eps := fst (split_episodes cur dataset) in
  scores acc' = (scores acc ++ map reward_sum eps)%list /\
  disc_scores acc' = (disc_scores acc ++ cumsum_from base (map (disc_return gamma) eps))%list /\
  lens acc' = (lens acc ++ map length eps)%list /\
  n_episodes acc' = (n_episodes acc + length eps)%nat.
Proof.
  revert cur acc base.
  induction dataset as [|d rest IH]; intros cur acc base Hs Hl Hd;
    cbn [foldl split_episodes].
  - cbn. rewrite !app_nil_r. repeat split; lia.
  - destruct (d_last d) eqn:Hlast.
    + specialize (IH [] (score_step gamma acc d)
                    (base + disc_return gamma (cur ++ [d])%list)).
      destruct (split_episodes [] rest) as [eps tail] eqn:Hsp.
      cbn [fst] in *. unfold score_step in *. rewrite Hlast in *.
      cbn [scores disc_scores lens score disc_score episode_steps n_episodes] in IH.
      destruct IH as (I1 & I2 & I3 & I4).
      * reflexivity.
      * reflexivity.
      * unfold disc_return at 2. cbn [disc_sum].
        unfold disc_return. rewrite disc_sum_snoc, Hd, Hl. unfold disc_return.
        cbn [Nat.add]. lra.
      * cbn zeta. rewrite I1, I2, I3, I4.
        cbn [map cumsum_from length]. rewrite <- !app_assoc. cbn [app].
        rewrite Hs, reward_sum_snoc.
        rewrite Hd, Hl. unfold disc_return. rewrite disc_sum_snoc. cbn [Nat.add].
        rewrite length_app. cbn [length].
        replace (base + (disc_sum gamma 0 cur + d_reward d * gamma ^ length cur))
          with (base + disc_sum gamma 0 cur + d_reward d * gamma ^ length cur) by lra.
        replace (length cur + 1)%nat with (S (length cur)) by lia.
        repeat split; lia.
    + specialize (IH (cur ++ [d])%list (score_step gamma acc d) base).
      unfold score_step in *. rewrite Hlast in *.
      cbn [scores disc_scores lens score disc_score episode_steps n_episodes] in IH.
      apply IH.
      * rewrite Hs, reward_sum_snoc. reflexivity.
      * rewrite Hl, length_app. cbn. lia.
      * rewrite Hd. unfold disc_return. rewrite disc_sum_snoc. cbn [Nat.add]. rewrite Hl. lra.
Qed.

Lemma score_loop_per_episode (dataset : list Sample) (gamma : R) :
  let acc := score_loop dataset gamma in
  let eps := fst (split_episodes [] dataset) in
  scores acc = map reward_sum eps /\
  disc_scores acc = cumsum_from 0 (map (disc_return gamma) eps) /\
  lens acc = map length eps /\
  n_episodes acc = length eps.
Proof.
  pose proof (score_loop_episodes gamma dataset [] score_init 0) as H.
  cbn zeta in *. unfold score_loop. apply H.
  - reflexivity.
  - reflexivity.
  - unfold disc_return. cbn. lra.
Qed.

Lemma split_episodes_concat (dataset cur : list Sample) :
  existsb d_last cur = false ->
  let '(eps, tail) := split_episodes cur dataset in
  (cur ++ dataset)%list = (concat eps ++ tail)%list /\
  Forall (fun ep => exists body d, ep = (body ++ [d])%list /\ d_last d = true /\
                                   existsb d_last body = false) eps /\
  existsb d_last tail = false.
Proof.
  revert cur. induction dataset as [|d rest IH]; intros cur Hcur;
    cbn [split_episodes].
  - rewrite app_nil_r. cbn. repeat split; auto.
  - destruct (d_last d) eqn:Hlast.
    + specialize (IH [] eq_refl). destruct (split_episodes [] rest) as [eps tail].
      destruct IH as (H1 & H2 & H3). cbn [app] in H1.
      split; [|split].
      * cbn [concat]. rewrite <- !app_assoc. cbn [app]. rewrite H1. reflexivity.
      * constructor; [|exact H2]. exists cur, d. auto.
      * exact H3.
    + assert (existsb d_last (cur ++ [d]) = false) as Hex.
      { rewrite existsb_app. cbn. rewrite Hlast, Hcur. reflexivity. }
      specialize (IH (cur ++ [d])%list Hex).
      destruct (split_episodes (cur ++ [d]) rest) as [eps tail].
      destruct IH as (H1 & H2 & H3).
      split; [|split]; [|exact H2|exact H3].
      rewrite <- H1, <- app_assoc. reflexivity.
Qed.

(** What [compute_scores] aggregates, episode by episode.  The dataset is
    its closed episodes (each ending with its only flagged sample) followed
    by an unflagged rest; the undiscounted scores are the per-episode reward
    sums and the lengths the per-episode sample counts; [disc_score] is not
    reset between episodes, so the k-th discounted score is the sum of the
    discounted returns of the episodes up to the k-th. *)
Theorem scores_are_episode_returns (dataset : list Sample) (gamma : R) :
  let acc := score_loop dataset gamma in
  let eps := fst (split_episodes [] dataset) in
  let tail := snd (split_episodes [] dataset) in
  dataset = (concat eps ++ tail)%list /\
  Forall (fun ep => exists body d, ep = (body ++ [d])%list /\ d_last d = true /\
                                   existsb d_last body = false) eps /\
  existsb d_last tail = false /\
  scores acc = map reward_sum eps /\
  disc_scores acc = cumsum_from 0 (map (disc_return gamma) eps) /\
  lens acc = map length eps /\
  n_episodes acc = length eps.
Proof.
  cbn zeta.
  pose proof (split_episodes_concat dataset [] eq_refl) as Hsp.
  pose proof (score_loop_per_episode dataset gamma) as Hsc. cbn zeta in Hsc.
  destruct (split_episodes [] dataset) as [eps tail]. cbn [fst snd] in *.
  destruct Hsp as (H1 & H2 & H3). destruct Hsc as (S1 & S2 & S3 & S4).
  cbn [app] in H1. auto 10.
Qed.

Lemma score_loop_no_flags (gamma : R) (tail : list Sample) (acc : score_acc) :
  existsb d_last tail = false ->
  let acc' := foldl (score_step gamma) acc tail in
  scores acc' = scores acc /\ disc_scores acc' = disc_scores acc /\
  lens acc' = lens acc /\ n_episodes acc' = n_episodes acc.
Proof.
  revert acc. induction tail as [|d rest IH]; intros acc H; cbn [foldl].
  - auto.
  - cbn [existsb] in H. apply orb_false_iff in H as [Hd Hrest].
    specialize (IH (score_step gamma acc d) Hrest). cbn zeta in IH.
    destruct IH as (I1 & I2 & I3 & I4). cbn zeta. rewrite I1, I2, I3, I4.
    unfold score_step. rewrite Hd. cbn. auto.
Qed.

(** Samples after the last closed episode do not count: appending samples
    without the closing flag leaves every returned statistic as it was. *)
Theorem unfinished_episode_is_ignored (dataset tail : list Sample) (gamma : R) :
  existsb d_last tail = false ->
  compute_scores (dataset ++ tail)%list gamma = compute_scores dataset gamma.
Proof.
  intros H. unfold compute_scores, score_loop. rewrite foldl_app.
  destruct (score_loop_no_flags gamma tail (foldl (score_step gamma) score_init dataset) H)
    as (H1 & H2 & H3 & H4).
  cbn zeta. rewrite H1, H2, H3, H4. reflexivity.
Qed.

Lemma unfinished_episode_is_ignored_witness :
  compute_scores ([sample_of 1 true] ++ [sample_of 5 false; sample_of 7 false])%list 0.9
  = compute_scores [sample_of 1 true] 0.9.
Proof.
  apply (unfinished_episode_is_ignored [sample_of 1 true]
           [sample_of 5 false; sample_of 7 false] 0.9).
  reflexivity.
Defined.

Lemma foldl_Rmin_le (l : list R) (a : R) :
  foldl Rmin a l <= a /\ forall x, x ∈ l -> foldl Rmin a l <= x.
Proof.
  revert a. induction l as [|y l IH]; intros a; cbn [foldl].
  - split; [lra|]. intros x Hx. inversion Hx.
  - destruct (IH (Rmin a y)) as [H1 H2].
    pose proof (Rmin_l a y). pose proof (Rmin_r a y).
    split; [lra|]. intros x Hx. apply elem_of_cons in Hx as [->|Hx]; [lra|].
    apply H2. exact Hx.
Qed.

Lemma foldl_Rmax_ge (l : list R) (a : R) :
  a <= foldl Rmax a l /\ forall x, x ∈ l -> x <= foldl Rmax a l.
Proof.
  revert a. induction l as [|y l IH]; intros a; cbn [foldl].
  - split; [lra|]. intros x Hx. inversion Hx.
  - destruct (IH (Rmax a y)) as [H1 H2].
    pose proof (Rmax_l a y). pose proof (Rmax_r a y).
    split; [lra|]. intros x Hx. apply elem_of_cons in Hx as [->|Hx]; [lra|].
    apply H2. exact Hx.
Qed.

Lemma np_min_le (l : list R) (x : R) : x ∈ l -> np_min l <= x.
Proof.
  destruct l as [|a l]; intros Hx; [inversion Hx|]. cbn [np_min].
  destruct (foldl_Rmin_le l a) as [H1 H2].
  apply elem_of_cons in Hx as [->|Hx]; [exact H1 | apply H2; exact Hx].
Qed.

Lemma np_max_ge (l : list R) (x : R) : x ∈ l -> x <= np_max l.
Proof.
  destruct l as [|a l]; intros Hx; [inversion Hx|]. cbn [np_max].
  destruct (foldl_Rmax_ge l a) as [H1 H2].
  apply elem_of_cons in Hx as [->|Hx]; [exact H1 | apply H2; exact Hx].
Qed.

Lemma np_sum_bounds (l : list R) (lo hi : R) :
  (forall x, x ∈ l -> lo <= x <= hi) ->
  INR (length l) * lo <= np_sum l <= INR (length l) * hi.
Proof.
  unfold np_sum. induction l as [|y l IH]; intros H.
  - cbn. lra.
  - cbn [foldr length]. rewrite S_INR.
    destruct (H y (list_elem_of_here _ _)) as [Hlo Hhi].
    destruct IH as [I1 I2].
    { intros x Hx. apply H. apply list_elem_of_further. exact Hx. }
    lra.
Qed.

Lemma np_mean_bounds (l : list R) (lo hi : R) :
  l <> [] -> (forall x, x ∈ l -> lo <= x <= hi) -> lo <= np_mean l <= hi.
Proof.
  intros Hne H. unfold np_mean.
  assert (0 < INR (length l)) as Hn.
  { apply lt_0_INR. destruct l; [contradiction|cbn; lia]. }
  destruct (np_sum_bounds l lo hi H) as [H1 H2].
  split.
  - apply Rmult_le_reg_r with (INR (length l)); [exact Hn|].
    unfold Rdiv. rewrite Rmult_assoc, Rinv_l by lra. lra.
  - apply Rmult_le_reg_r with (INR (length l)); [exact Hn|].
    unfold Rdiv. rewrite Rmult_assoc, Rinv_l by lra. lra.
Qed.

Lemma np_std_nonneg (l : list R) : 0 <= np_std l.
Proof. unfold np_std. apply sqrt_pos. Qed.

(** With a closed episode in the dataset the first branch is taken. *)
Lemma compute_scores_closed (dataset : list Sample) (gamma : R) :
  existsb d_last dataset = true ->
  let acc := score_loop dataset gamma in
  compute_scores dataset gamma
  = [ PyFloat (np_min (scores acc)); PyFloat (np_max (scores acc));
      PyFloat (np_mean (scores acc)); PyFloat (np_std (scores acc));
      PyFloat (np_min (disc_scores acc)); PyFloat (np_max (disc_scores acc));
      PyFloat (np_mean (disc_scores acc)); PyFloat (np_std (disc_scores acc));
      PyFloat (np_mean (map INR (lens acc)));
      PyInt (Z.of_nat (n_last dataset)) ] /\
  length (scores acc) = n_last dataset.
Proof.
  intros Hex.
  pose proof (score_loop_lengths gamma dataset score_init) as (H1 & _ & _ & H4).
  cbn in H1, H4. fold (score_loop dataset gamma) in H1, H4.
  apply n_last_existsb in Hex. cbn zeta. unfold compute_scores. cbn zeta.
  destruct (Nat.ltb_spec 0 (length (scores (score_loop dataset gamma)))) as [_|Hle];
    [|lia].
  rewrite H4. split; [reflexivity | exact H1].
Qed.



Lemma n_last_le_length (dataset : list Sample) :
  (n_last dataset <= length dataset)%nat.
Proof.
  unfold n_last. induction dataset as [|d ds IH]; cbn [List.filter length]; [lia|].
  destruct (d_last d); cbn [length]; lia.
Qed.

Lemma np_min_le_max (l : list R) : l <> [] -> np_min l <= np_max l.
Proof.
  destruct l as [|x l]; [contradiction|]. intros _.
  pose proof (np_min_le (x :: l) x (list_elem_of_here _ _)).
  pose proof (np_max_ge (x :: l) x (list_elem_of_here _ _)). lra.
Qed.

(** The ten statistics are consistent with one another, in ways rounding
    leaves alone: the minimum is not above the maximum, for the
    undiscounted and for the discounted scores, the deviations are not
    negative, the mean episode length is at least one step and at most the
    size of the dataset, and between one episode and as many episodes as
    there are samples are counted. *)
Theorem compute_scores_statistics_ordered (dataset : list Sample) (gamma : R) :
  existsb d_last dataset = true ->
  exists mn mx mu sd dmn dmx dmu dsd ml n,
    compute_scores dataset gamma
    = [ PyFloat mn; PyFloat mx; PyFloat mu; PyFloat sd;
        PyFloat dmn; PyFloat dmx; PyFloat dmu; PyFloat dsd;
        PyFloat ml; PyInt n ] /\
    mn <= mx /\ 0 <= sd /\
    dmn <= dmx /\ 0 <= dsd /\
    1 <= ml <= INR (length dataset) /\
    (1 <= n <= Z.of_nat (length dataset))%Z.
Proof.
  intros Hex.
  destruct (compute_scores_closed dataset gamma Hex) as (Hcs & Hlen).
  cbn zeta in Hcs, Hlen.
  pose proof (split_episodes_concat dataset [] eq_refl) as Hsp.
  pose proof (score_loop_per_episode dataset gamma) as (Hsc & Hdsc & Hlens & Hn).
  cbn zeta in *.
  assert (dataset = (concat (fst (split_episodes [] dataset))
                     ++ snd (split_episodes [] dataset))%list /\
          Forall (fun ep => exists body d, ep = (body ++ [d])%list /\ d_last d = true /\
                            existsb d_last body = false)
            (fst (split_episodes [] dataset))) as [Hcat Heps].
  { destruct (split_episodes [] dataset) as [e t]. cbn [app] in Hsp.
    split; apply Hsp. }
  clear Hsp.
  assert (0 < n_last dataset)%nat as Hpos by (apply n_last_existsb; exact Hex).
  pose proof (n_last_le_length dataset) as Hle.
  set (acc := score_loop dataset gamma) in *.
  set (eps := fst (split_episodes [] dataset)) in *.
  assert (length eps = n_last dataset) as Hne.
  { rewrite <- Hlen, Hsc, length_map. reflexivity. }
  assert (scores acc <> []) as Hs1.
  { intros E. rewrite E in Hlen. cbn in Hlen. lia. }
  assert (disc_scores acc <> []) as Hs2.
  { intros E. rewrite Hdsc in E. destruct eps; [cbn in Hne; lia|discriminate E]. }
  do 10 eexists. split; [exact Hcs|].
  split; [apply np_min_le_max; exact Hs1|].
  split; [apply np_std_nonneg|].
  split; [apply np_min_le_max; exact Hs2|].
  split; [apply np_std_nonneg|].
  split; [|lia].
  apply np_mean_bounds.
  - rewrite Hlens. destruct eps; [cbn in Hne; lia|discriminate].
  - intros x Hx.
    rewrite Hlens in Hx. apply list_elem_of_fmap in Hx as (k & -> & Hk).
    apply list_elem_of_fmap in Hk as (ep & -> & Hep).
    rewrite Forall_forall in Heps. destruct (Heps ep Hep) as (body & d & Hbd & _).
    split.
    + rewrite Hbd, length_app. cbn [length]. rewrite Nat.add_1_r, S_INR.
      pose proof (pos_INR (length body)). lra.
    + apply le_INR. rewrite Hcat, length_app.
      apply list_elem_of_split in Hep as (l1 & l2 & ->).
      rewrite concat_app, length_app. cbn [concat]. rewrite length_app. lia.
Qed.

Lemma compute_scores_statistics_ordered_witness :
  exists mn mx mu sd dmn dmx dmu dsd ml n,
    compute_scores [sample_of 1 false; sample_of 2 true; sample_of 3 true] 0.9
    = [ PyFloat mn; PyFloat mx; PyFloat mu; PyFloat sd;
        PyFloat dmn; PyFloat dmx; PyFloat dmu; PyFloat dsd;
        PyFloat ml; PyInt n ] /\
    mn <= mx /\ 0 <= sd /\
    dmn <= dmx /\ 0 <= dsd /\
    1 <= ml <= INR 3 /\
    (1 <= n <= 3)%Z.
Proof.
  apply (compute_scores_statistics_ordered
           [sample_of 1 false; sample_of 2 true; sample_of 3 true] 0.9).
  reflexivity.
Defined.

(** * Further properties of the construction phase of [experiment] *)

Lemma build_agent_valid (info : MDPInfo) (lr : Param) (a : Args) :
  known_algorithm (a_algorithm a) = true ->
  invalid_combination (a_algorithm a) (a_policy a) = false ->
  exists pi ag eps,
    build_agent info lr a = Return ([], a_policy a, pi, ag, eps) /\
    policy_dict (a_policy a) = Return (pi_class pi).
Proof.
  unfold known_algorithm, invalid_combination, build_agent, str_in at 1.
  cbn [existsb]. intros Hk Hi.
  destruct (String.eqb (a_algorithm a) "ql") eqn:E1.
  { apply negb_false_iff in Hi. rewrite Hi. cbn [negb].
    destruct (policy_dict_listed _ _ Hi) as [c Hc].
    { repeat constructor; eexists; reflexivity. }
    rewrite Hc. cbn [mbind Py_bind py_bind].
    destruct (String.eqb (a_policy a) "eps-greedy");
      do 3 eexists; (split; [reflexivity|]); reflexivity. }
  destruct (String.eqb (a_algorithm a) "boot-ql") eqn:E2.
  { apply negb_false_iff in Hi. rewrite Hi. cbn [negb].
    destruct (policy_dict_listed _ _ Hi) as [c Hc].
    { repeat constructor; eexists; reflexivity. }
    rewrite Hc. cbn [mbind Py_bind py_bind].
    do 3 eexists. split; reflexivity. }
  destruct (String.eqb (a_algorithm a) "particle-ql") eqn:E3; [|discriminate Hk].
  apply negb_false_iff in Hi. rewrite Hi. cbn [negb].
  destruct (policy_dict_listed _ _ Hi) as [c Hc].
  { repeat constructor; eexists; reflexivity. }
  rewrite Hc. cbn [mbind Py_bind py_bind].
  do 3 eexists. split; reflexivity.
Qed.

Lemma build_agent_unknown (info : MDPInfo) (lr : Param) (a : Args) :
  known_algorithm (a_algorithm a) = false ->
  build_agent info lr a = Raise ValueError.
Proof.
  unfold known_algorithm, build_agent, str_in. cbn [existsb]. intros Hk.
  destruct (String.eqb (a_algorithm a) "ql"); [discriminate Hk|].
  destruct (String.eqb (a_algorithm a) "boot-ql"); [discriminate Hk|].
  destruct (String.eqb (a_algorithm a) "particle-ql"); [discriminate Hk|].
  reflexivity.
Qed.

Lemma default_policy_is_valid (algorithm : string) :
  invalid_combination algorithm (default_policy algorithm) = false.
Proof.
  unfold invalid_combination, default_policy.
  destruct (String.eqb algorithm "ql"); [reflexivity|].
  destruct (String.eqb algorithm "boot-ql"); [reflexivity|].
  destruct (String.eqb algorithm "particle-ql"); reflexivity.
Qed.

Lemma invalid_combination_known (algorithm policy : string) :
  invalid_combination algorithm policy = true -> known_algorithm algorithm = true.
Proof.
  unfold invalid_combination, known_algorithm, str_in. cbn [existsb].
  destruct (String.eqb algorithm "ql"); [reflexivity|].
  destruct (String.eqb algorithm "boot-ql"); [reflexivity|].
  destruct (String.eqb algorithm "particle-ql"); [reflexivity|discriminate].
Qed.

(** A valid algorithm/policy combination is taken as it is: no warning, the
    requested policy in effect, built from its entry in [policy_dict]. *)
Theorem valid_combination_is_kept
    (envs : Environments) (e : N) (g : RandomState) (a : Args) :
  known_name (a_name a) = true ->
  known_algorithm (a_algorithm a) = true ->
  invalid_combination (a_algorithm a) (a_policy a) = false ->
  exists s,
    snd (experiment_setup envs e g a) = Return s /\
    warnings s = [] /\
    policy_name s = a_policy a /\
    policy_dict (a_policy a) = Return (pi_class (the_pi s)).
Proof.
  intros Hn Hk Hi. unfold experiment_setup. cbn [snd].
  destruct (select_mdp_known _ Hn) as [b Hb]. rewrite Hb.
  cbn [mbind Py_bind py_bind].
  destruct (build_agent_valid (envs (mdp_gen b))
              (ExponentialDecayParameter_new 1 0.3 (info_size (envs (mdp_gen b))))
              a Hk Hi) as (pi & ag & eps & Hba & Hpd).
  rewrite Hba. cbn. eexists. split; [reflexivity|]. cbn. auto.
Qed.

Lemma valid_combination_is_kept_witness :
  exists s,
    snd (experiment_setup toy_envs 7 fresh_generator (toy_args "particle-ql" "vpi"))
    = Return s /\
    warnings s = [] /\
    policy_name s = "vpi" /\
    policy_dict "vpi" = Return (pi_class (the_pi s)).
Proof.
  apply (valid_combination_is_kept toy_envs 7 fresh_generator
           (toy_args "particle-ql" "vpi")); reflexivity.
Defined.

(** Which exception, and in which order: an unknown environment name raises
    [NotImplementedError] whatever the algorithm; with a known name an
    unknown algorithm raises [ValueError]; in every other case the
    construction returns. *)
Theorem experiment_exceptions
    (envs : Environments) (e : N) (g : RandomState) (a : Args) :
  (known_name (a_name a) = false ->
     snd (experiment_setup envs e g a) = Raise NotImplementedError) /\
  (known_name (a_name a) = true -> known_algorithm (a_algorithm a) = false ->
     snd (experiment_setup envs e g a) = Raise ValueError) /\
  (known_name (a_name a) = true -> known_algorithm (a_algorithm a) = true ->
     exists s, snd (experiment_setup envs e g a) = Return s).
Proof.
  unfold experiment_setup. cbn [snd]. split; [|split].
  - intros Hn. rewrite (select_mdp_unknown_raises _ Hn). reflexivity.
  - intros Hn Hk. destruct (select_mdp_known _ Hn) as [b Hb]. rewrite Hb.
    cbn [mbind Py_bind py_bind]. rewrite build_agent_unknown by exact Hk.
    reflexivity.
  - intros Hn Hk. destruct (select_mdp_known _ Hn) as [b Hb]. rewrite Hb.
    cbn [mbind Py_bind py_bind].
    set (info := envs (mdp_gen b)).
    set (lr := ExponentialDecayParameter_new 1 0.3 (info_size info)).
    destruct (invalid_combination (a_algorithm a) (a_policy a)) eqn:Hi.
    + destruct (build_agent_invalid info lr a Hi) as (w & pi & ag & eps & Hba & _).
      rewrite Hba. cbn. eexists. reflexivity.
    + destruct (build_agent_valid info lr a Hk Hi) as (pi & ag & eps & Hba & _).
      rewrite Hba. cbn. eexists. reflexivity.
Qed.

Lemma experiment_exceptions_witness :
  snd (experiment_setup toy_envs 7 fresh_generator
         (mkArgs "sarsa" "Maze" "deterministic" "weighted" "boot" 10 10000 0))
  = Raise NotImplementedError /\
  snd (experiment_setup toy_envs 7 fresh_generator (toy_args "sarsa" "boot"))
  = Raise ValueError /\
  exists s, snd (experiment_setup toy_envs 7 fresh_generator (toy_args "ql" "vpi"))
            = Return s.
Proof.
  split; [|split].
  - apply (proj1 (experiment_exceptions toy_envs 7 fresh_generator
             (mkArgs "sarsa" "Maze" "deterministic" "weighted" "boot" 10 10000 0))).
    reflexivity.
  - apply (proj1 (proj2 (experiment_exceptions toy_envs 7 fresh_generator
                           (toy_args "sarsa" "boot")))); reflexivity.
  - apply (proj2 (proj2 (experiment_exceptions toy_envs 7 fresh_generator
                           (toy_args "ql" "vpi")))); reflexivity.
Defined.

(** Whatever was requested, the policy a constructed agent runs with is one
    of those listed for its algorithm, it comes from [policy_dict], and at
    most one warning was issued. *)
Theorem effective_policy_is_compatible
    (envs : Environments) (e : N) (g : RandomState) (a : Args) (s : Setup) :
  snd (experiment_setup envs e g a) = Return s ->
  invalid_combination (a_algorithm a) (policy_name s) = false /\
  known_algorithm (a_algorithm a) = true /\
  policy_dict (policy_name s) = Return (pi_class (the_pi s)) /\
  (length (warnings s) <= 1)%nat /\
  (warnings s = [] <-> policy_name s = a_policy a).
Proof.
  unfold experiment_setup. cbn [snd].
  destruct (select_mdp (a_name a)) as [ex|b]; cbn [mbind Py_bind py_bind];
    [discriminate|].
  set (info := envs (mdp_gen b)).
  set (lr := ExponentialDecayParameter_new 1 0.3 (info_size info)).
  destruct (known_algorithm (a_algorithm a)) eqn:Hk.
  2:{ rewrite build_agent_unknown by exact Hk. discriminate. }
  destruct (invalid_combination (a_algorithm a) (a_policy a)) eqn:Hi.
  - destruct (build_agent_invalid info lr a Hi) as (w & pi & ag & eps & Hba & Hpd).
    rewrite Hba. cbn. intros H. injection H as <-. cbn.
    split; [apply default_policy_is_valid|]. split; [reflexivity|].
    split; [exact Hpd|]. split; [lia|].
    split; [discriminate|].
    intros Heq. rewrite <- Heq, default_policy_is_valid in Hi. discriminate Hi.
  - destruct (build_agent_valid info lr a Hk Hi) as (pi & ag & eps & Hba & Hpd).
    rewrite Hba. cbn. intros H. injection H as <-. cbn.
    split; [exact Hi|]. split; [reflexivity|]. split; [exact Hpd|].
    split; [lia|]. split; reflexivity.
Qed.

Lemma effective_policy_is_compatible_witness :
  invalid_combination "boot-ql" "boot" = false /\
  known_algorithm "boot-ql" = true.
Proof.
  destruct (effective_policy_is_compatible toy_envs 7 fresh_generator
              (toy_args "boot-ql" "eps-greedy")
              (mkSetup ["Bootstrapped QL available with only boot and weighted policies!"]
                 "boot" (mkPolicy BootPolicy (kw_n_approximators 10))
                 (BootstrappedQLearning (mkPolicy BootPolicy (kw_n_approximators 10))
                    (toy_envs (generate_chain 1000)) 10 ((10000 + 0) / 2) (10000 - 0)
                    (ExponentialDecayParameter_new 1 0.3 [5; 2]%nat))
                 (Parameter_new 0) (Parameter_new 0)
                 (mkBudget (generate_chain 1000) 100000 10000 10000))
              eq_refl) as (H1 & H2 & _).
  split; [exact H1 | exact H2].
Defined.

(** Plain Q-learning does not look at [update_mode], [update_type],
    [n_approximators] or [q_min]; bootstrapped Q-learning does not look at
    [update_mode] or [update_type]: runs that differ only there construct
    the same thing. *)
Lemma unused_arguments
    (envs : Environments) (e : N) (g : RandomState)
    (name policy um um' ut ut' : string) (n n' : Z) (q_max q_min q_min' : R) :
  snd (experiment_setup envs e g (mkArgs "ql" name um ut policy n q_max q_min))
  = snd (experiment_setup envs e g (mkArgs "ql" name um' ut' policy n' q_max q_min')) /\
  snd (experiment_setup envs e g (mkArgs "boot-ql" name um ut policy n q_max q_min))
  = snd (experiment_setup envs e g (mkArgs "boot-ql" name um' ut' policy n q_max q_min)).
Proof. split; reflexivity. Qed.

(** * Properties of the epoch loop of [experiment] *)

Lemma select_mdp_budget (name : string) (b : Budget) :
  select_mdp name = Return b ->
  (max_steps b = 10 * evaluation_frequency b)%Z /\
  test_samples b = evaluation_frequency b /\
  (0 < evaluation_frequency b)%Z.
Proof.
  unfold select_mdp.
  repeat (match goal with
          | |- context [String.eqb ?x ?y] => destruct (String.eqb x y)
          end;
          [intros H; injection H as <-; cbn; repeat split; lia|]).
  discriminate.
Qed.

Lemma n_epochs_known (name : string) (b : Budget) :
  select_mdp name = Return b -> n_epochs b = 10%Z.
Proof.
  intros H. destruct (select_mdp_budget name b H) as (H1 & _ & H3).
  unfold n_epochs. rewrite H1. apply Z.div_mul. lia.
Qed.

Lemma experiment_setup_budget
    (envs : Environments) (e : N) (g : RandomState) (a : Args) (s : Setup) :
  snd (experiment_setup envs e g a) = Return s ->
  select_mdp (a_name a) = Return (budget s).
Proof.
  unfold experiment_setup. cbn [snd].
  destruct (select_mdp (a_name a)) as [ex|b]; cbn [mbind Py_bind py_bind];
    [discriminate|].
  destruct (build_agent _ _ a) as [ex|[[[[w p] pi] ag] eps]]; cbn; [discriminate|].
  intros H. injection H as <-. reflexivity.
Qed.

Lemma experiment_setup_returns
    (envs : Environments) (e : N) (g : RandomState) (a : Args) :
  known_name (a_name a) = true -> known_algorithm (a_algorithm a) = true ->
  exists s, snd (experiment_setup envs e g a) = Return s.
Proof.
  intros Hn Hk. unfold experiment_setup. cbn [snd].
  destruct (select_mdp_known _ Hn) as [b Hb]. rewrite Hb.
  cbn [mbind Py_bind py_bind].
  set (info := envs (mdp_gen b)).
  set (lr := ExponentialDecayParameter_new 1 0.3 (info_size info)).
  destruct (invalid_combination (a_algorithm a) (a_policy a)) eqn:Hi.
  - destruct (build_agent_invalid info lr a Hi) as (w & pi & ag & eps & Hba & _).
    rewrite Hba. cbn. eexists. reflexivity.
  - destruct (build_agent_valid info lr a Hk Hi) as (pi & ag & eps & Hba & _).
    rewrite Hba. cbn. eexists. reflexivity.
Qed.

Lemma compute_scores_length (dataset : list Sample) (gamma : R) :
  length (compute_scores dataset gamma) = 10%nat \/
  length (compute_scores dataset gamma) = 11%nat.
Proof.
  unfold compute_scores. cbn zeta.
  destruct (0 <? length (scores (score_loop dataset gamma)))%nat;
    [left | right]; reflexivity.
Qed.

(** Every epoch appends one entry to each of the two score lists. *)
Lemma epochs_append {W : Type} (drv : Driver W) (s : Setup) (gamma : R)
    (l : list Z) (st : loop_state W) :
  let st' := foldl (epoch drv s gamma) st l in
  length (train_scores st') = (length (train_scores st) + length l)%nat /\
  length (test_scores st') = (length (test_scores st) + length l)%nat /\
  (Forall (fun t => length t = 10%nat \/ length t = 11%nat) (train_scores st) ->
   Forall (fun t => length t = 10%nat \/ length t = 11%nat) (train_scores st')) /\
  (Forall (fun t => length t = 10%nat \/ length t = 11%nat) (test_scores st) ->
   Forall (fun t => length t = 10%nat \/ length t = 11%nat) (test_scores st')).
Proof.
  revert st. induction l as [|n l IH]; intros st; cbn [foldl].
  - cbn. repeat split; auto; lia.
  - specialize (IH (epoch drv s gamma st n)). cbn zeta in IH.
    destruct IH as (I1 & I2 & I3 & I4).
    assert (exists w d1 d2,
              epoch drv s gamma st n
              = mkLoop w (train_scores st ++ [compute_scores d1 gamma])%list
                  (test_scores st ++ [compute_scores d2 gamma])%list)
      as (w & d1 & d2 & He).
    { unfold epoch. cbn zeta.
      destruct (core_evaluate drv _ _) as [w' d2]. do 3 eexists. reflexivity. }
    rewrite He in *. cbn [train_scores test_scores] in *.
    rewrite length_app in I1, I2. cbn [length] in *.
    split; [lia|]. split; [lia|]. split.
    + intros HF. apply I3. apply Forall_app. split; [exact HF|].
      constructor; [apply compute_scores_length | constructor].
    + intros HF. apply I4. apply Forall_app. split; [exact HF|].
      constructor; [apply compute_scores_length | constructor].
Qed.

(** Whatever the collaborators do, a run with a known environment and a
    known algorithm returns two lists of ten score tuples, each of ten or
    eleven components: the step budget of every environment is exactly ten
    training phases of [evaluation_frequency] steps, each followed by an
    evaluation of as many samples. *)
Theorem experiment_runs_ten_epochs {W : Type}
    (envs : Environments) (drv : Driver (RandomState * W)) (e : N)
    (g : RandomState) (a : Args) (w : W) :
  known_name (a_name a) = true ->
  known_algorithm (a_algorithm a) = true ->
  exists s train test,
    snd (experiment_setup envs e g a) = Return s /\
    snd (experiment envs drv e g a w) = Return (train, test) /\
    length train = 10%nat /\ length test = 10%nat /\
    Forall (fun t => length t = 10%nat \/ length t = 11%nat) train /\
    Forall (fun t => length t = 10%nat \/ length t = 11%nat) test /\
    (10 * evaluation_frequency (budget s) = max_steps (budget s))%Z /\
    test_samples (budget s) = evaluation_frequency (budget s).
Proof.
  intros Hn Hk.
  destruct (experiment_setup_returns envs e g a Hn Hk) as [s Hs].
  pose proof (experiment_setup_budget envs e g a s Hs) as Hb.
  destruct (select_mdp_budget _ _ Hb) as (B1 & B2 & B3).
  unfold experiment. destruct (experiment_setup envs e g a) as [g' r].
  cbn [snd] in *. subst r. cbn [snd].
  set (gm := gamma (envs (mdp_gen (budget s)))).
  destruct (epochs_append drv s gm (py_range 1 (n_epochs (budget s) + 1))
              (mkLoop (g', w) [] [])) as (L1 & L2 & F1 & F2).
  fold (experiment_loop drv s gm (g', w)) in L1, L2, F1, F2.
  assert (length (py_range 1 (n_epochs (budget s) + 1)) = 10%nat) as Hlen.
  { unfold py_range. rewrite length_map, length_seq.
    rewrite (n_epochs_known _ _ Hb). reflexivity. }
  rewrite Hlen in L1, L2. cbn in L1, L2.
  exists s, (train_scores (experiment_loop drv s gm (g', w))),
    (test_scores (experiment_loop drv s gm (g', w))).
  split; [reflexivity|]. split; [reflexivity|].
  split; [exact L1|]. split; [exact L2|].
  split; [apply F1; constructor|]. split; [apply F2; constructor|].
  split; [lia | exact B2].
Qed.

Lemma experiment_runs_ten_epochs_witness :
  exists s train test,
    snd (experiment_setup toy_envs 7 fresh_generator (toy_args "ql" "boot")) = Return s /\
    snd (experiment toy_envs toy_driver 7 fresh_generator (toy_args "ql" "boot") [])
    = Return (train, test) /\
    length train = 10%nat /\ length test = 10%nat /\
    Forall (fun t => length t = 10%nat \/ length t = 11%nat) train /\
    Forall (fun t => length t = 10%nat \/ length t = 11%nat) test /\
    (10 * evaluation_frequency (budget s) = max_steps (budget s))%Z /\
    test_samples (budget s) = evaluation_frequency (budget s).
Proof.
  apply (experiment_runs_ten_epochs toy_envs toy_driver 7 fresh_generator
           (toy_args "ql" "boot") []); reflexivity.
Defined.

(** * The generator of a run *)

(** An epoch leaves the generator on the stream it found it on. *)
Lemma epoch_keeps_seed {W : Type} (drv : Driver (RandomState * W)) (s : Setup)
    (gm : R) (st : loop_state (RandomState * W)) (n : Z) :
  never_reseeds drv ->
  seeded_with (fst (world (epoch drv s gm st n))) = seeded_with (fst (world st)).
Proof.
  intros (He & Hv & Hl & Hc & Hr & Hev). unfold epoch. cbn zeta.
  destruct (core_evaluate drv _ _) as [v' d2] eqn:Heval. cbn [world].
  rewrite Hr.
  change v' with (fst (v', d2)). rewrite <- Heval, Hev.
  assert (forall (b : bool) (f : RandomState * W -> RandomState * W) v,
            (forall v, seeded_with (fst (f v)) = seeded_with (fst v)) ->
            seeded_with (fst (if b then f v else v)) = seeded_with (fst v)) as Hif.
  { intros b f v Hf. destruct b; [apply Hf | reflexivity]. }
  rewrite (Hif _ (set_eval drv true)) by apply Hv.
  rewrite (Hif _ (set_epsilon drv (epsilon_test s))) by apply He.
  rewrite Hr, Hc, Hl.
  rewrite (Hif _ (set_eval drv false)) by apply Hv.
  rewrite (Hif _ (set_epsilon drv (epsilon_train s))) by apply He.
  reflexivity.
Qed.

Lemma epochs_keep_seed {W : Type} (drv : Driver (RandomState * W)) (s : Setup)
    (gm : R) (l : list Z) (st : loop_state (RandomState * W)) :
  never_reseeds drv ->
  seeded_with (fst (world (foldl (epoch drv s gm) st l)))
  = seeded_with (fst (world st)).
Proof.
  intros Hd. revert st. induction l as [|n l IH]; intros st; cbn [foldl].
  - reflexivity.
  - rewrite IH. apply epoch_keeps_seed. exact Hd.
Qed.

(** C6, as the code has it: [experiment] re-seeds numpy's global generator
    from operating-system entropy before anything else, and takes no seed.
    A run is therefore the same, in what it returns and in the state it
    leaves the generator in, whatever state the generator had before,
    seeded by the caller or not; the generator it starts from is the same
    for all arguments; and with collaborators that only draw, the whole run
    stays on the stream of that entropy. *)
Theorem experiment_reseeds_from_entropy {W : Type}
    (envs : Environments) (drv : Driver (RandomState * W)) (e : N)
    (g g' : RandomState) (a a' : Args) (w : W) :
  never_reseeds drv ->
  experiment envs drv e g a w = experiment envs drv e g' a w /\
  fst (experiment_setup envs e g a) = fst (experiment_setup envs e g' a') /\
  seeded_with (fst (experiment_setup envs e g a)) = e /\
  seeded_with (fst (experiment envs drv e g a w)) = e.
Proof.
  intros Hd. split; [reflexivity|]. split; [reflexivity|]. split; [reflexivity|].
  unfold experiment.
  destruct (experiment_setup envs e g a) as [g1 r] eqn:Hs.
  assert (seeded_with g1 = e) as Hg1.
  { change g1 with (fst (g1, r)). rewrite <- Hs. reflexivity. }
  destruct r as [ex|s]; cbn [fst]; [exact Hg1|].
  unfold experiment_loop. rewrite epochs_keep_seed by exact Hd. exact Hg1.
Qed.

Lemma toy_driver_never_reseeds : never_reseeds toy_driver.
Proof. repeat split. Qed.

Lemma experiment_reseeds_from_entropy_witness :
  experiment toy_envs toy_driver 7 (np_random_seed (Some 42%N) 0 fresh_generator)
    (toy_args "ql" "boot") []
  = experiment toy_envs toy_driver 7 fresh_generator (toy_args "ql" "boot") [] /\
  seeded_with (fst (experiment toy_envs toy_driver 7
                      (np_random_seed (Some 42%N) 0 fresh_generator)
                      (toy_args "ql" "boot") [])) = 7%N.
Proof.
  destruct (experiment_reseeds_from_entropy toy_envs toy_driver 7
              (np_random_seed (Some 42%N) 0 fresh_generator) fresh_generator
              (toy_args "ql" "boot") (toy_args "ql" "boot") []
              toy_driver_never_reseeds) as (H1 & _ & _ & H4).
  split; [exact H1 | exact H4].
Defined.

(** C6, as stated, fails: [experiment] takes no seed, and two runs with the
    same arguments, each started right after the caller seeded the global
    generator with the same seed, return different results when the
    operating system hands out different entropy: here the first
    evaluation closes an episode in one run and none in the other. *)
Lemma same_arguments_different_streams :
  snd (experiment toy_envs toy_driver 1 (np_random_seed (Some 42%N) 0 fresh_generator)
         (toy_args "particle-ql" "vpi") [])
  <> snd (experiment toy_envs toy_driver 2 (np_random_seed (Some 42%N) 0 fresh_generator)
            (toy_args "particle-ql" "vpi") []).
Proof.
  intros H. apply (f_equal first_test_arity) in H.
  vm_compute in H. discriminate H.
Qed.

(** * Properties of the command line *)

Example parse_args_defaults :
  parse_args empty_command_line
  = Some (mkNamespace
            (mkArgs "particle-ql" "RiverSwim" "deterministic" "weighted" "boot"
               10 10000 0)
            1 "./data").
Proof. reflexivity. Qed.

Example parse_args_rejects_unknown_policy :
  parse_args (mkCommandLine None None None None (Some "greedy")
                None None None None None) = None.
Proof. reflexivity. Qed.

Example file_name_ql :
  file_name (mkNamespace (toy_args "ql" "boot") 1 "./data") "1541.5"
  = "results_boot_1__1541.5".
Proof. reflexivity. Qed.

Example file_name_particle :
  save_target (mkNamespace (toy_args "particle-ql" "vpi") 1 "./data") "1541.5"
  = "./data/Chain/particle-ql/results_vpi_10_weighted_1541.5".
Proof. reflexivity. Qed.

Lemma with_choices_in (choices : list string) (default v : string)
    (o : option string) :
  str_in default choices = true ->
  with_choices choices default o = Some v -> str_in v choices = true.
Proof.
  intros Hd. unfold with_choices. destruct o as [x|].
  - destruct (str_in x choices) eqn:Hx; [|discriminate].
    intros H. injection H as <-. exact Hx.
  - intros H. injection H as <-. exact Hd.
Qed.

Lemma parse_args_choices (cl : CommandLine) (ns : Namespace) :
  parse_args cl = Some ns ->
  str_in (a_algorithm (ns_args ns)) algorithm_choices = true /\
  str_in (a_update_mode (ns_args ns)) update_mode_choices = true /\
  str_in (a_update_type (ns_args ns)) update_type_choices = true /\
  str_in (a_policy (ns_args ns)) policy_choices = true.
Proof.
  unfold parse_args.
  destruct (with_choices algorithm_choices _ _) as [al|] eqn:H1; [|discriminate].
  destruct (with_choices update_mode_choices _ _) as [um|] eqn:H2; [|discriminate].
  destruct (with_choices update_type_choices _ _) as [ut|] eqn:H3; [|discriminate].
  destruct (with_choices policy_choices _ _) as [po|] eqn:H4; [|discriminate].
  intros H. injection H as <-. cbn [ns_args a_algorithm a_update_mode a_update_type a_policy].
  split; [|split; [|split]].
  - eapply with_choices_in; [|exact H1]; reflexivity.
  - eapply with_choices_in; [|exact H2]; reflexivity.
  - eapply with_choices_in; [|exact H3]; reflexivity.
  - eapply with_choices_in; [|exact H4]; reflexivity.
Qed.

(** A command line the parser accepts can only fail on the environment
    name, the one option without [choices]: with a known name the
    construction returns, and the policy in the command line is a key of
    [policy_dict]. *)
Theorem accepted_command_line_constructs
    (envs : Environments) (e : N) (g : RandomState)
    (cl : CommandLine) (ns : Namespace) :
  parse_args cl = Some ns ->
  (exists c, policy_dict (a_policy (ns_args ns)) = Return c) /\
  (known_name (a_name (ns_args ns)) = true ->
     exists s, snd (experiment_setup envs e g (ns_args ns)) = Return s) /\
  (known_name (a_name (ns_args ns)) = false ->
     snd (experiment_setup envs e g (ns_args ns)) = Raise NotImplementedError).
Proof.
  intros Hp. destruct (parse_args_choices cl ns Hp) as (Ha & _ & _ & Hpo).
  split; [|split].
  - apply (policy_dict_listed _ _ Hpo). repeat constructor; eexists; reflexivity.
  - intros Hn. apply experiment_setup_returns; [exact Hn | exact Ha].
  - intros Hn. unfold experiment_setup. cbn [snd].
    rewrite (select_mdp_unknown_raises _ Hn). reflexivity.
Qed.

Lemma accepted_command_line_constructs_witness :
  (exists c, policy_dict "boot" = Return c) /\
  (known_name "RiverSwim" = true ->
     exists s,
       snd (experiment_setup toy_envs 7 fresh_generator
              (mkArgs "particle-ql" "RiverSwim" "deterministic" "weighted" "boot"
                 10 10000 0)) = Return s) /\
  (known_name "RiverSwim" = false ->
     snd (experiment_setup toy_envs 7 fresh_generator
            (mkArgs "particle-ql" "RiverSwim" "deterministic" "weighted" "boot"
               10 10000 0)) = Raise NotImplementedError).
Proof.
  apply (accepted_command_line_constructs toy_envs 7 fresh_generator
           empty_command_line _ eq_refl).
Defined.

(** The defaults of the command line are themselves an invalid combination:
    a command line that gives neither [--algorithm] nor [--policy] selects
    particle Q-learning with the bootstrapped policy, and the construction
    warns and runs the weighted policy instead. *)
Theorem default_command_line_warns
    (envs : Environments) (e : N) (g : RandomState)
    (cl : CommandLine) (ns : Namespace) :
  cl_algorithm cl = None -> cl_policy cl = None ->
  parse_args cl = Some ns ->
  known_name (a_name (ns_args ns)) = true ->
  a_algorithm (ns_args ns) = "particle-ql" /\
  a_policy (ns_args ns) = "boot" /\
  exists s,
    snd (experiment_setup envs e g (ns_args ns)) = Return s /\
    warnings s = ["Particle QL available with only vpi and weighted policies!"] /\
    policy_name s = "weighted" /\
    pi_class (the_pi s) = WeightedPolicy.
Proof.
  intros Hal Hpo. unfold parse_args. rewrite Hal, Hpo. cbn [with_choices].
  destruct (with_choices update_mode_choices _ _) as [um|]; [|discriminate].
  destruct (with_choices update_type_choices _ _) as [ut|]; [|discriminate].
  intros H. injection H as <-. cbn [ns_args a_name a_algorithm a_policy].
  intros Hn. split; [reflexivity|]. split; [reflexivity|].
  unfold experiment_setup. cbn [snd].
  destruct (select_mdp_known _ Hn) as [b Hb]. cbn [a_name]. rewrite Hb.
  cbn. eexists. split; [reflexivity|]. cbn. auto.
Qed.

Lemma default_command_line_warns_witness :
  a_algorithm (mkArgs "particle-ql" "RiverSwim" "deterministic" "weighted" "boot"
                 10 10000 0) = "particle-ql" /\
  a_policy (mkArgs "particle-ql" "RiverSwim" "deterministic" "weighted" "boot"
              10 10000 0) = "boot" /\
  exists s,
    snd (experiment_setup toy_envs 7 fresh_generator
           (mkArgs "particle-ql" "RiverSwim" "deterministic" "weighted" "boot"
              10 10000 0)) = Return s /\
    warnings s = ["Particle QL available with only vpi and weighted policies!"] /\
    policy_name s = "weighted" /\
    pi_class (the_pi s) = WeightedPolicy.
Proof.
  apply (default_command_line_warns toy_envs 7 fresh_generator
           empty_command_line _ eq_refl eq_refl eq_refl eq_refl).
Defined.

Lemma str_in_In (x : string) (l : list string) : str_in x l = true -> In x l.
Proof.
  unfold str_in. induction l as [|y l IH]; cbn [existsb]; [discriminate|].
  destruct (String.eqb x y) eqn:E; cbn [orb].
  - intros _. left. symmetry. apply String.eqb_eq. exact E.
  - intros H. right. apply IH. exact H.
Qed.

Lemma append_assoc (s t u : string) : (s ++ t) ++ u = s ++ (t ++ u).
Proof.
  induction s as [|c s IH]; [reflexivity|].
  change (String c ((s ++ t) ++ u) = String c (s ++ (t ++ u))). f_equal. exact IH.
Qed.

Lemma prefix_append (s t : string) : String.prefix s (s ++ t) = true.
Proof.
  induction s as [|c s IH].
  - destruct t; reflexivity.
  - change (String.prefix (String c s) (String c (s ++ t)) = true).
    cbn [String.prefix].
    destruct (Ascii.ascii_dec c c) as [_|Hne]; [exact IH | contradiction].
Qed.

Lemma file_name_prefix (ns : Namespace) (now : string) :
  String.prefix ("results_" ++ a_policy (ns_args ns) ++ "_") (file_name ns now) = true.
Proof.
  unfold file_name. cbn zeta.
  rewrite <- (append_assoc (a_policy (ns_args ns)) "_").
  rewrite <- (append_assoc "results_" (a_policy (ns_args ns) ++ "_")).
  apply prefix_append.
Qed.

(** The results file is labelled with the policy that was asked for, not
    with the one that ran: for an accepted command line with an invalid
    combination the file name starts with [results_<requested policy>_],
    while the construction substituted another policy, whose label the file
    name does not carry. *)
Theorem file_label_is_requested_policy
    (envs : Environments) (e : N) (g : RandomState)
    (cl : CommandLine) (ns : Namespace) (now : string) :
  parse_args cl = Some ns ->
  known_name (a_name (ns_args ns)) = true ->
  invalid_combination (a_algorithm (ns_args ns)) (a_policy (ns_args ns)) = true ->
  exists s,
    snd (experiment_setup envs e g (ns_args ns)) = Return s /\
    policy_name s <> a_policy (ns_args ns) /\
    String.prefix ("results_" ++ a_policy (ns_args ns) ++ "_") (file_name ns now) = true /\
    String.prefix ("results_" ++ policy_name s ++ "_") (file_name ns now) = false.
Proof.
  intros Hp Hn Hi.
  pose proof (file_name_prefix ns now) as Hpre.
  destruct (parse_args_choices cl ns Hp) as (Ha & _ & _ & Hpo).
  apply str_in_In in Ha, Hpo.
  destruct ns as [[alg name um ut pol n qmax qmin] nexp dir].
  cbn [ns_args a_algorithm a_policy a_name] in *.
  destruct (select_mdp_known _ Hn) as [b Hb].
  unfold experiment_setup. cbn [snd a_name]. rewrite Hb. clear Hp Hn Hb.
  cbn [In algorithm_choices policy_choices] in Ha, Hpo.
  destruct Ha as [<-|[<-|[<-|[]]]];
    destruct Hpo as [<-|[<-|[<-|[<-|[<-|[]]]]]];
    try discriminate Hi;
    (eexists; split; [reflexivity|]; split; [cbn; discriminate|];
     split; [exact Hpre|]; vm_compute; reflexivity).
Qed.

Lemma file_label_is_requested_policy_witness :
  exists s,
    snd (experiment_setup toy_envs 7 fresh_generator
           (mkArgs "particle-ql" "RiverSwim" "deterministic" "weighted" "boot"
              10 10000 0)) = Return s /\
    policy_name s <> "boot" /\
    String.prefix ("results_" ++ "boot" ++ "_")
      (file_name (mkNamespace
                    (mkArgs "particle-ql" "RiverSwim" "deterministic" "weighted"
                       "boot" 10 10000 0) 1 "./data") "1541.5") = true /\
    String.prefix ("results_" ++ policy_name s ++ "_")
      (file_name (mkNamespace
                    (mkArgs "particle-ql" "RiverSwim" "deterministic" "weighted"
                       "boot" 10 10000 0) 1 "./data") "1541.5") = false.
Proof.
  apply (file_label_is_requested_policy toy_envs 7 fresh_generator
           empty_command_line _ "1541.5" eq_refl eq_refl eq_refl).
Defined.

(** * Further properties of [SimpleNet] *)

Example new_target_net :
  SimpleNet_new (Some "target") None None (toy_pars "features" "adam") "target"
    [vec [0]; vec [1]]
  = ([],
     Return (mkNetObj (SimpleNet_init (Some "target") [vec [0]; vec [1]])
               ["_name"; "_folder_name"; "convnet_pars"; "_session"; "_scope_name";
                "_x"; "_action"; "_features_1"; "_features_2"; "_q"; "_target_q";
                "_q_acted"; "_merged"; "_train_step"; "_train_count";
                "_target_w"; "_w"]
               None "target/" 0)).
Proof. reflexivity. Qed.

Example new_net_unknown_optimizer :
  snd (SimpleNet_new (Some "train") None None (toy_pars "linear" "sgd") "train" [])
  = Raise ValueError.
Proof. reflexivity. Qed.

Example load_effects :
  fst (SimpleNet_new (Some "train") None (Some "/tmp/run") (toy_pars "linear" "adam")
         "ignored" [])
  = [ImportMetaGraph "/tmp/run/train/train.meta"; SaverRestore "/tmp/run/train/train"].
Proof. reflexivity. Qed.

Lemma shapes_map_Forall2 (vars weights : list tensor) :
  map t_shape weights = map t_shape vars ->
  Forall2 (fun v w => t_shape w = t_shape v) vars weights.
Proof.
  revert weights. induction vars as [|v vars IH]; intros [|w weights] H;
    try discriminate H; [constructor|].
  cbn [map] in H. injection H as Hs Hrest.
  constructor; [exact Hs | apply IH; exact Hrest].
Qed.

(** On a target network fed values of the shapes of its variables,
    [set_weights] leaves the network that [__init__] would make of the new
    values. *)
Lemma set_weights_target (vars weights : list tensor) :
  map t_shape weights = map t_shape vars ->
  set_weights (SimpleNet_init (Some "target") vars) weights
  = (SimpleNet_init (Some "target") weights, Return tt).
Proof.
  intros Hsh. unfold SimpleNet_init.
  rewrite bool_decide_eq_true_2 by reflexivity.
  rewrite (set_weights_shapes_agree vars weights (Some "target")
             (shapes_map_Forall2 vars weights Hsh)).
  rewrite Hsh. reflexivity.
Qed.

Lemma target_variables (vars : list tensor) :
  variables (SimpleNet_init (Some "target") vars) = vars.
Proof.
  unfold SimpleNet_init. rewrite bool_decide_eq_true_2 by reflexivity. reflexivity.
Qed.

Lemma select_by_mask_length {A : Type} (mask : list bool) (l : list A) :
  (length (select_by_mask mask l) <= length l)%nat /\
  (length mask = length l -> In false mask ->
   (length (select_by_mask mask l) < length l)%nat).
Proof.
  revert l. induction mask as [|b mask IH]; intros l; cbn [select_by_mask].
  - split; [cbn; lia|]. intros _ [].
  - destruct l as [|x l]; [split; [cbn; lia|]; intros H; discriminate H|].
    destruct (IH l) as [I1 I2]. destruct b; cbn [length].
    + split; [lia|]. intros Hl [Hf|Hin]; [discriminate Hf|].
      specialize (I2 ltac:(cbn in Hl; lia) Hin). lia.
    + split; [lia|]. intros _ _. lia.
Qed.

(** Round trip of the weights of a target network: values that have the
    shapes of the variables are read back by [get_weights] as [set_weights]
    wrote them, and writing back what was read changes nothing.  With
    [only_trainable] the list read is shorter as soon as one global variable
    is not trainable, and writing it back fails on the assertion. *)
Theorem weights_round_trip
    (vars weights : list tensor) (trainable : list bool) :
  let net := SimpleNet_init (Some "target") vars in
  (map t_shape weights = map t_shape vars ->
     snd (set_weights net weights) = Return tt /\
     get_weights (fst (set_weights net weights)) trainable false = weights) /\
  set_weights net (get_weights net trainable false) = (net, Return tt) /\
  (length trainable = length vars -> In false trainable ->
     set_weights net (get_weights net trainable true) = (net, Raise AssertionError)).
Proof.
  intros net. split; [|split].
  - intros Hsh. subst net. rewrite (set_weights_target vars weights Hsh).
    cbn [fst snd]. split; [reflexivity|]. unfold get_weights. cbn [negb].
    apply target_variables.
  - subst net. unfold get_weights. cbn [negb].
    rewrite target_variables. apply set_weights_target. reflexivity.
  - intros Hl Hin. apply set_weights_length_mismatch.
    subst net. unfold get_weights. cbn [negb].
    rewrite target_variables.
    destruct (select_by_mask_length trainable vars) as [_ H].
    specialize (H Hl Hin). lia.
Qed.

Lemma weights_round_trip_witness :
  (snd (set_weights (SimpleNet_init (Some "target") [vec [0]; vec [0; 0]])
          [vec [1]; vec [2; 3]]) = Return tt /\
   get_weights (fst (set_weights (SimpleNet_init (Some "target") [vec [0]; vec [0; 0]])
                       [vec [1]; vec [2; 3]])) [true; false] false
   = [vec [1]; vec [2; 3]]) /\
  set_weights (SimpleNet_init (Some "target") [vec [0]; vec [0; 0]])
    (get_weights (SimpleNet_init (Some "target") [vec [0]; vec [0; 0]])
       [true; false] true)
  = (SimpleNet_init (Some "target") [vec [0]; vec [0; 0]], Raise AssertionError).
Proof.
  split.
  - apply (proj1 (weights_round_trip [vec [0]; vec [0; 0]] [vec [1]; vec [2; 3]]
                    [true; false])).
    reflexivity.
  - apply (proj2 (proj2 (weights_round_trip [vec [0]; vec [0; 0]] [] [true; false]))).
    + reflexivity.
    + right. left. reflexivity.
Defined.

(** Synchronising a target network: after
    [target.set_weights(source.get_weights())] the target holds the values
    of the source when the variables of the two have the same shapes, one by
    one, and a later call with values of those shapes overwrites them; when
    the two do not have as many variables the assertion fails and the target
    is untouched. *)
Theorem target_follows_source
    (source : SimpleNet) (vars : list tensor) (trainable : list bool)
    (later : list tensor) :
  let target := SimpleNet_init (Some "target") vars in
  (map t_shape (variables source) = map t_shape vars ->
     set_weights target (get_weights source trainable false)
     = (SimpleNet_init (Some "target") (variables source), Return tt) /\
     (map t_shape later = map t_shape vars ->
        set_weights (fst (set_weights target (get_weights source trainable false))) later
        = (SimpleNet_init (Some "target") later, Return tt))) /\
  (length (variables source) <> length vars ->
     set_weights target (get_weights source trainable false)
     = (target, Raise AssertionError)).
Proof.
  intros target. unfold get_weights. cbn [negb]. split.
  - intros Hsh.
    assert (set_weights target (variables source)
            = (SimpleNet_init (Some "target") (variables source), Return tt)) as H1.
    { subst target. apply set_weights_target. exact Hsh. }
    split; [exact H1|]. intros Hl. rewrite H1. cbn [fst].
    apply set_weights_target. congruence.
  - intros Hne. apply set_weights_length_mismatch. subst target.
    rewrite target_variables. congruence.
Qed.

Lemma target_follows_source_witness :
  set_weights (SimpleNet_init (Some "target") [vec [0]; vec [0; 0]])
    (get_weights (SimpleNet_init (Some "train") [vec [1]; vec [2; 3]]) [] false)
  = (SimpleNet_init (Some "target") [vec [1]; vec [2; 3]], Return tt) /\
  set_weights (SimpleNet_init (Some "target") [vec [0]; vec [0; 0]])
    (get_weights (SimpleNet_init (Some "train") [vec [1]]) [] false)
  = (SimpleNet_init (Some "target") [vec [0]; vec [0; 0]], Raise AssertionError).
Proof.
  split.
  - apply (proj1 (proj1 (target_follows_source
                           (SimpleNet_init (Some "train") [vec [1]; vec [2; 3]])
                           [vec [0]; vec [0; 0]] [] []) eq_refl)).
  - apply (proj2 (target_follows_source (SimpleNet_init (Some "train") [vec [1]])
                    [vec [0]; vec [0; 0]] [] [])).
    vm_compute. intros H. discriminate H.
Defined.

Lemma new_loaded (name folder_name : option string) (path : string)
    (pars : ConvnetPars) (scope : string) (vars : list tensor) (n : Net) :
  snd (SimpleNet_new name folder_name (Some path) pars scope vars) = Return n ->
  exists nt,
    net_type pars = Some nt /\
    n = mkNetObj (SimpleNet_init name vars)
          (init_attrs ++ ("_scope_name" :: graph_attrs (String.eqb nt "features"))
           ++ name_attrs name)%list
          folder_name "train/" 0.
Proof.
  unfold SimpleNet_new, load_net. cbn [snd].
  destruct (net_type pars) as [nt|]; cbn; [|discriminate].
  intros H. injection H as <-. exists nt. split; reflexivity.
Qed.

Lemma new_built (name folder_name : option string)
    (pars : ConvnetPars) (scope : string) (vars : list tensor) (n : Net) :
  snd (SimpleNet_new name folder_name None pars scope vars) = Return n ->
  exists nt,
    net_type pars = Some nt /\
    n = mkNetObj (SimpleNet_init name vars)
          (init_attrs
           ++ ("_scope_name" :: graph_attrs (String.eqb nt "features")
               ++ writer_attrs folder_name ++ ["_train_count"])
           ++ name_attrs name)%list
          folder_name (scope ++ "/") 0.
Proof.
  unfold SimpleNet_new, build_net. cbn [snd].
  destruct name as [nm|]; cbn [variable_scope mbind Py_bind py_bind];
    [|discriminate].
  destruct (input_shape pars) as [ish|]; cbn [dict_get mbind Py_bind py_bind];
    [|discriminate].
  destruct (output_shape pars) as [out|]; cbn [dict_get mbind Py_bind py_bind];
    [|discriminate].
  destruct (getitem out 0) as [ex|d0]; cbn [mbind Py_bind py_bind]; [discriminate|].
  destruct (n_states_par pars) as [ns|]; cbn [dict_get mbind Py_bind py_bind];
    [|discriminate].
  destruct (net_type pars) as [nt|]; cbn [dict_get mbind Py_bind py_bind];
    [|discriminate].
  destruct (optimizer pars) as [op|]; cbn [dict_get mbind Py_bind py_bind];
    [|discriminate].
  destruct (make_optimizer op) as [ex|u]; cbn [mbind Py_bind py_bind]; [discriminate|].
  intros H. injection H as <-. exists nt. split; reflexivity.
Qed.

(** [n_features] reads [self._features], which no code path assigns (the
    layers are [_features_1] and [_features_2]): on every network that was
    constructed, built or loaded, the property raises [AttributeError]. *)
Theorem n_features_always_raises
    (name folder_name load_path : option string) (pars : ConvnetPars)
    (scope : string) (vars : list tensor) (n : Net) :
  snd (SimpleNet_new name folder_name load_path pars scope vars) = Return n ->
  n_features n = Raise (AttributeError "_features").
Proof.
  intros H. destruct load_path as [path|].
  - destruct (new_loaded _ _ _ _ _ _ _ H) as (nt & _ & ->).
    unfold n_features. decide_attribute.
  - destruct (new_built _ _ _ _ _ _ H) as (nt & _ & ->).
    unfold n_features. decide_attribute.
Qed.

Lemma n_features_always_raises_witness :
  n_features (mkNetObj (SimpleNet_init (Some "target") [vec [0]; vec [1]])
               ["_name"; "_folder_name"; "convnet_pars"; "_session"; "_scope_name";
                "_x"; "_action"; "_features_1"; "_features_2"; "_q"; "_target_q";
                "_q_acted"; "_merged"; "_train_step"; "_train_count";
                "_target_w"; "_w"]
               None "target/" 0)
  = Raise (AttributeError "_features").
Proof.
  apply (n_features_always_raises (Some "target") None None
           (toy_pars "features" "adam") "target" [vec [0]; vec [1]]).
  reflexivity.
Defined.

(** [predict] returns the Q-values on every constructed network; the
    features are available exactly when the net type is ['features']; for
    any other net type [predict(s, features=True)] raises
    [AttributeError]. *)
Theorem predict_features_need_feature_net
    (name folder_name load_path : option string) (pars : ConvnetPars)
    (scope : string) (vars : list tensor) (n : Net) :
  snd (SimpleNet_new name folder_name load_path pars scope vars) = Return n ->
  predict n false = Return (RunPredict "_q") /\
  exists nt,
    net_type pars = Some nt /\
    predict n true
    = if String.eqb nt "features" then Return (RunPredict "_features_2")
      else Raise (AttributeError "_features_2").
Proof.
  intros H. destruct load_path as [path|].
  - destruct (new_loaded _ _ _ _ _ _ _ H) as (nt & Hnt & ->).
    split; [unfold predict; decide_attribute|].
    exists nt. split; [exact Hnt|]. unfold predict. decide_attribute.
  - destruct (new_built _ _ _ _ _ _ H) as (nt & Hnt & ->).
    split; [unfold predict; decide_attribute|].
    exists nt. split; [exact Hnt|]. unfold predict. decide_attribute.
Qed.

Lemma predict_features_need_feature_net_witness :
  exists n,
    snd (SimpleNet_new (Some "train") None None (toy_pars "linear" "adam") "train" [])
    = Return n /\
    predict n false = Return (RunPredict "_q") /\
    predict n true = Raise (AttributeError "_features_2").
Proof.
  eexists. split; [reflexivity|].
  destruct (predict_features_need_feature_net (Some "train") None None
              (toy_pars "linear" "adam") "train" [] _ eq_refl)
    as (H1 & nt & Hnt & H2).
  split; [exact H1|]. injection Hnt as <-. exact H2.
Defined.

Lemma fit_ready (n : Net) :
  hasattr n "_session" = true -> hasattr n "_merged" = true ->
  hasattr n "_train_step" = true -> hasattr n "_x" = true ->
  hasattr n "_action" = true -> hasattr n "_target_q" = true ->
  fit n
  = if hasattr n "_train_count"
    then (with_count n (S (o_train_count n)),
          fit_effects (hasattr n "_train_writer") (o_train_count n), Return tt)
    else (n, [RunTrainStep], Raise (AttributeError "_train_count")).
Proof.
  intros H1 H2 H3 H4 H5 H6. unfold fit, need. rewrite H1, H2, H3, H4, H5, H6.
  cbn [mbind Py_bind py_bind]. unfold fit_effects, with_count.
  destruct (hasattr n "_train_writer"), (hasattr n "_train_count"); reflexivity.
Qed.

Lemma fits_counted (k : nat) (n : Net) :
  hasattr n "_session" = true -> hasattr n "_merged" = true ->
  hasattr n "_train_step" = true -> hasattr n "_x" = true ->
  hasattr n "_action" = true -> hasattr n "_target_q" = true ->
  hasattr n "_train_count" = true ->
  fits k n
  = (with_count n (o_train_count n + k),
     flat_map (fit_effects (hasattr n "_train_writer")) (seq (o_train_count n) k),
     Return tt).
Proof.
  revert n. induction k as [|k IH]; intros n H1 H2 H3 H4 H5 H6 H7.
  - cbn. rewrite Nat.add_0_r. destruct n; reflexivity.
  - cbn [fits]. rewrite (fit_ready n H1 H2 H3 H4 H5 H6), H7.
    rewrite (IH (with_count n (S (o_train_count n)))) by assumption.
    cbn [seq flat_map]. unfold with_count. cbn [core attrs o_folder_name
      o_scope_name o_train_count].
    replace (S (o_train_count n) + k)%nat with (o_train_count n + S k)%nat by lia.
    reflexivity.
Qed.

(** Training steps are counted from zero on a network that was built: after
    [k] calls of [fit] the counter is [k], and each call ran the training
    step and, when a folder was given, wrote its summary under the number
    of the calls before it.  A network that was loaded has no counter:
    [_load] never assigns [_train_count], so its first [fit] runs the
    training step and then raises [AttributeError]. *)
Theorem fit_counts_training_steps
    (name folder_name load_path : option string) (pars : ConvnetPars)
    (scope : string) (vars : list tensor) (n : Net) (k : nat) :
  snd (SimpleNet_new name folder_name load_path pars scope vars) = Return n ->
  match load_path with
  | None =>
      fits k n
      = (with_count n k,
         flat_map (fit_effects (bool_decide (is_Some folder_name))) (seq 0 k),
         Return tt)
  | Some _ =>
      fit n = (n, [RunTrainStep], Raise (AttributeError "_train_count")) /\
      fits (S k) n = (n, [RunTrainStep], Raise (AttributeError "_train_count"))
  end.
Proof.
  intros H. destruct load_path as [path|].
  - destruct (new_loaded _ _ _ _ _ _ _ H) as (nt & _ & ->).
    assert (fit (mkNetObj (SimpleNet_init name vars)
                   (init_attrs ++ ("_scope_name" :: graph_attrs (String.eqb nt "features"))
                    ++ name_attrs name)%list folder_name "train/" 0)
            = (mkNetObj (SimpleNet_init name vars)
                 (init_attrs ++ ("_scope_name" :: graph_attrs (String.eqb nt "features"))
                  ++ name_attrs name)%list folder_name "train/" 0,
               [RunTrainStep], Raise (AttributeError "_train_count"))) as Hfit.
    { rewrite fit_ready by decide_attribute.
      replace (hasattr _ "_train_count") with false by (symmetry; decide_attribute).
      reflexivity. }
    split; [exact Hfit|]. cbn [fits]. rewrite Hfit. reflexivity.
  - destruct (new_built _ _ _ _ _ _ H) as (nt & _ & ->).
    rewrite fits_counted by decide_attribute.
    cbn [o_train_count Nat.add].
    replace (hasattr _ "_train_writer") with (bool_decide (is_Some folder_name)).
    + reflexivity.
    + destruct folder_name as [f|].
      * rewrite bool_decide_eq_true_2 by (eexists; reflexivity).
        symmetry. decide_attribute.
      * rewrite bool_decide_eq_false_2 by (intros [x Hx]; discriminate Hx).
        symmetry. decide_attribute.
Qed.

Lemma fit_counts_training_steps_witness :
  (exists n,
     snd (SimpleNet_new (Some "train") (Some "/tmp/run") None
            (toy_pars "linear" "adam") "train" []) = Return n /\
     fits 2 n = (with_count n 2,
                 [RunTrainStep; AddSummary 0; RunTrainStep; AddSummary 1],
                 Return tt)) /\
  (exists n,
     snd (SimpleNet_new (Some "train") (Some "/tmp/run") (Some "/tmp/run")
            (toy_pars "linear" "adam") "train" []) = Return n /\
     fit n = (n, [RunTrainStep], Raise (AttributeError "_train_count"))).
Proof.
  split.
  - eexists. split; [reflexivity|].
    apply (fit_counts_training_steps (Some "train") (Some "/tmp/run") None
             (toy_pars "linear" "adam") "train" [] _ 2 eq_refl).
  - eexists. split; [reflexivity|].
    apply (proj1 (fit_counts_training_steps (Some "train") (Some "/tmp/run")
                    (Some "/tmp/run") (toy_pars "linear" "adam") "train" [] _ 0
                    eq_refl)).
Defined.

Lemma drop_last_snoc (s : string) : drop_last (s ++ "/") = s.
Proof.
  induction s as [|a s IH]; [reflexivity|].
  change (drop_last (String a (s ++ "/")) = String a s).
  cbn [drop_last]. destruct (s ++ "/") eqn:E.
  - destruct s; discriminate E.
  - rewrite IH. reflexivity.
Qed.

Lemma string_length_append (s t : string) :
  String.length (s ++ t) = (String.length s + String.length t)%nat.
Proof.
  induction s as [|a s IH]; [reflexivity|].
  change (S (String.length (s ++ t)) = S (String.length s + String.length t)).
  rewrite IH. reflexivity.
Qed.

Lemma append_cancel_l (s t u : string) : s ++ t = s ++ u -> t = u.
Proof.
  induction s as [|a s IH]; [trivial|].
  intros H. change (String a (s ++ t) = String a (s ++ u)) in H.
  injection H as H. apply IH. exact H.
Qed.

(** The only scope whose checkpoint path is the one [_load] reads. *)
Lemma scope_path_train (scope : string) :
  scope ++ ("/" ++ scope) = "train/train" -> scope = "train".
Proof.
  intros H.
  assert (String.length scope = 5%nat) as Hlen.
  { apply (f_equal String.length) in H.
    rewrite !string_length_append in H. cbn in H. lia. }
  destruct scope as [|c1 [|c2 [|c3 [|c4 [|c5 [|c6 rest]]]]]]; try discriminate Hlen.
  cbn in H. injection H as -> -> -> -> ->. reflexivity.
Qed.

(** Where [save] writes and when it can: only a network named ['train'] has
    a saver; without a folder the path cannot be formed; otherwise the
    checkpoint goes to [folder/scope/scope], the scope being the one the
    graph opened for a built network and ['train'] for a loaded one. *)
Theorem save_outcome
    (name folder_name load_path : option string) (pars : ConvnetPars)
    (scope : string) (vars : list tensor) (n : Net) :
  snd (SimpleNet_new name folder_name load_path pars scope vars) = Return n ->
  let sc := match load_path with Some _ => "train" | None => scope end in
  save n
  = if bool_decide (name = Some "train")
    then match folder_name with
         | None => SaveTypeError
         | Some folder => Saved (folder ++ "/" ++ sc ++ "/" ++ sc)
         end
    else SaveAttributeError "_train_saver".
Proof.
  intros H sc. destruct load_path as [path|].
  - destruct (new_loaded _ _ _ _ _ _ _ H) as (nt & _ & ->). subst sc.
    unfold save, hasattr. cbn [attrs o_folder_name o_scope_name]. unfold name_attrs.
    destruct (bool_decide (name = Some "train"));
      [|destruct (bool_decide (name = Some "target"));
        destruct (String.eqb nt "features"); reflexivity].
    destruct (String.eqb nt "features"); destruct folder_name; reflexivity.
  - destruct (new_built _ _ _ _ _ _ H) as (nt & _ & ->). subst sc.
    unfold save, hasattr. cbn [attrs o_folder_name o_scope_name].
    unfold name_attrs, writer_attrs.
    rewrite (drop_last_snoc scope).
    destruct (bool_decide (name = Some "train"));
      [|destruct (bool_decide (name = Some "target"));
        destruct (String.eqb nt "features"); destruct folder_name; reflexivity].
    destruct (String.eqb nt "features"); destruct folder_name; reflexivity.
Qed.

Lemma save_outcome_witness :
  exists n,
    snd (SimpleNet_new (Some "train") (Some "/tmp/run") None
           (toy_pars "linear" "adam") "train_1" []) = Return n /\
    save n = Saved "/tmp/run/train_1/train_1".
Proof.
  eexists. split; [reflexivity|].
  apply (save_outcome (Some "train") (Some "/tmp/run") None
           (toy_pars "linear" "adam") "train_1" [] _ eq_refl).
Defined.

(** Saving and loading meet only for the scope ['train']: a built network
    named ['train'] with a folder saves to [folder/scope/scope], and a
    network loaded from that folder always reads [folder/train/train] (and
    its [.meta]); the two are the same path exactly when the scope the
    graph gave the saved network is ['train']. *)
Theorem checkpoint_round_trip
    (folder scope : string) (pars : ConvnetPars) (vars : list tensor) (n : Net)
    (name' folder' : option string) (pars' : ConvnetPars) (scope' : string)
    (vars' : list tensor) :
  snd (SimpleNet_new (Some "train") (Some folder) None pars scope vars) = Return n ->
  exists saved,
    save n = Saved saved /\
    fst (SimpleNet_new name' folder' (Some folder) pars' scope' vars')
    = [ImportMetaGraph (folder ++ "/train/train" ++ ".meta");
       SaverRestore (folder ++ "/train/train")] /\
    (saved = folder ++ "/train/train" <-> scope = "train").
Proof.
  intros H. destruct (new_built _ _ _ _ _ _ H) as (nt & _ & ->).
  exists (folder ++ "/" ++ scope ++ "/" ++ scope). split; [|split].
  - unfold save, hasattr. cbn [attrs o_folder_name o_scope_name].
    unfold name_attrs, writer_attrs. rewrite (drop_last_snoc scope).
    rewrite bool_decide_eq_true_2 by reflexivity.
    destruct (String.eqb nt "features"); reflexivity.
  - unfold SimpleNet_new, load_net. cbn [fst].
    destruct (net_type pars'); cbn [fst];
      change (drop_last "train/") with "train";
      rewrite !append_assoc; reflexivity.
  - split.
    + intros Heq. apply append_cancel_l in Heq.
      change ("/" ++ (scope ++ ("/" ++ scope)) = "/" ++ "train/train") in Heq.
      apply append_cancel_l in Heq. apply scope_path_train. exact Heq.
    + intros ->. reflexivity.
Qed.

Lemma checkpoint_round_trip_witness :
  exists n saved,
    snd (SimpleNet_new (Some "train") (Some "/tmp/run") None
           (toy_pars "linear" "adam") "train" []) = Return n /\
    save n = Saved saved /\
    fst (SimpleNet_new (Some "target") None (Some "/tmp/run")
           (toy_pars "linear" "adam") "target" [])
    = [ImportMetaGraph ("/tmp/run" ++ "/train/train" ++ ".meta");
       SaverRestore ("/tmp/run" ++ "/train/train")] /\
    (saved = "/tmp/run" ++ "/train/train" <-> "train" = "train").
Proof.
  eexists.
  destruct (checkpoint_round_trip "/tmp/run" "train" (toy_pars "linear" "adam") [] _
              (Some "target") None (toy_pars "linear" "adam") "target" [] eq_refl)
    as (saved & H1 & H2 & H3).
  exists saved. split; [reflexivity|]. split; [exact H1|]. split; [exact H2|exact H3].
Defined.

(** With a name and every key of [_build] present up to the optimizer,
    building succeeds or fails as the optimizer dispatch does. *)
Lemma build_net_by_optimizer (name scope : string) (folder_name : option string)
    (pars : ConvnetPars) (ish out : list nat) (d : nat) (ns : option nat)
    (nt : string) (o : Optimizer) :
  input_shape pars = Some ish ->
  output_shape pars = Some (d :: out) ->
  n_states_par pars = Some ns ->
  net_type pars = Some nt ->
  optimizer pars = Some o ->
  build_net (Some name) scope folder_name pars
  = match make_optimizer o with
    | Raise e => Raise e
    | Return _ =>
        Return (scope ++ "/",
                ("_scope_name" :: graph_attrs (String.eqb nt "features")
                 ++ writer_attrs folder_name ++ ["_train_count"])%list,
                0%nat)
    end.
Proof.
  intros Hi Ho Hn Ht Hp. unfold build_net. rewrite Hi, Ho, Hn, Ht, Hp.
  cbn [variable_scope dict_get getitem mbind Py_bind py_bind].
  change ((d :: out) !! 0%nat) with (Some d). cbn [mbind Py_bind py_bind].
  destruct (make_optimizer o); reflexivity.
Qed.

Lemma unknown_optimizer_raises (o : Optimizer) (nm : string) :
  opt_name o = Some nm ->
  str_in nm known_optimizers = false ->
  make_optimizer o = Raise ValueError.
Proof.
  intros Hn Hk. unfold make_optimizer. rewrite Hn.
  cbn [dict_get mbind Py_bind py_bind].
  unfold str_in, known_optimizers in Hk. cbn [existsb] in Hk.
  apply orb_false_iff in Hk as [H1 Hk]. apply orb_false_iff in Hk as [H2 Hk].
  apply orb_false_iff in Hk as [H3 Hk]. apply orb_false_iff in Hk as [H4 _].
  rewrite H1, H2, H3, H4. reflexivity.
Qed.

(** A parameter set whose optimizer name is none of the four the dispatch
    knows cannot build a network: the constructor of a named network raises
    [ValueError] after the whole graph was laid out, whatever the other
    optimizer options are, and the constructor of an unnamed one has
    already raised [TypeError] when it opened the scope.  The same
    parameters load a saved network without complaint, named or not,
    because [_load] looks neither at the name nor at the optimizer. *)
Theorem unknown_optimizer_builds_nothing_but_loads
    (name folder_name : option string) (pars : ConvnetPars)
    (scope path : string) (vars : list tensor)
    (ish out : list nat) (d : nat) (ns : option nat) (nt nm : string)
    (o : Optimizer) :
  input_shape pars = Some ish ->
  output_shape pars = Some (d :: out) ->
  n_states_par pars = Some ns ->
  net_type pars = Some nt ->
  optimizer pars = Some o ->
  opt_name o = Some nm ->
  str_in nm known_optimizers = false ->
  SimpleNet_new name folder_name None pars scope vars
  = ([], Raise (match name with Some _ => ValueError | None => TypeError end)) /\
  exists n,
    snd (SimpleNet_new name folder_name (Some path) pars scope vars) = Return n /\
    o_scope_name n = "train/".
Proof.
  intros Hi Ho Hn Ht Hp Hnm Hk. split.
  - unfold SimpleNet_new. destruct name as [name|]; [|reflexivity].
    rewrite (build_net_by_optimizer name scope folder_name pars ish out d ns nt o
               Hi Ho Hn Ht Hp).
    rewrite (unknown_optimizer_raises o nm Hnm Hk). reflexivity.
  - unfold SimpleNet_new, load_net. rewrite Ht.
    cbn [dict_get mbind Py_bind py_bind snd]. eexists. split; reflexivity.
Qed.

Lemma unknown_optimizer_builds_nothing_but_loads_witness :
  SimpleNet_new (Some "train") None None (toy_pars "linear" "sgd") "train" []
  = ([], Raise ValueError) /\
  exists n,
    snd (SimpleNet_new (Some "train") None (Some "/tmp/run")
           (toy_pars "linear" "sgd") "train" []) = Return n /\
    o_scope_name n = "train/".
Proof.
  apply (unknown_optimizer_builds_nothing_but_loads (Some "train") None
           (toy_pars "linear" "sgd") "train" "/tmp/run" [] [4%nat] [] 2%nat None
           "linear" "sgd" (mkOptimizer (Some "sgd") (Some 0.001) (Some 0.95) (Some 0.01)));
    reflexivity.
Defined.


